(** * agent-teams: mailbox and task coordination over a shared directory

    A shallow embedding of [src/agent_teams/core.py].  The directory tree
    under [TEAMS_ROOT] is a record of finite maps, one per kind of file:

      <team>/config.json              [configs]  team        -> Config
      <team>/inboxes/<agent>.json     [inboxes]  team, agent -> list Message
      <team>/inboxes/.<agent>.cursor  [cursors]  team, agent -> nat
      <team>/tasks/<id>.json          [tasks]    team, id    -> Task

    A file holds the value that [json.loads] reads back from what
    [json.dumps] wrote; a key is absent exactly when the file does not
    exist.  Every function of [core.py] becomes a function from the world
    before the call to an outcome ([Ok v] or a raised [Err e]) and the
    world after it, so that what a call leaves behind when it raises is
    part of the model.  [uuid.uuid4] and [datetime.now] are read from two
    streams indexed by a counter kept in the world.

    Calls run one after the other: the [fcntl] locks, which order the calls
    of concurrent processes, and the lock file [tasks/.lock] are not part of
    the model.  A key of the maps stands for the path the code builds from
    it, [TEAMS_ROOT / team / "tasks" / f"{task_id}.json"] and the like, which
    is the file of that name when the team is the name of a directory
    ([dir_name]) and the agent or task id holds no ['/'] ([file_stem]);
    theorems that depend on it say so ([names_ok], [op_ok]). *)

From Stdlib Require Import String Ascii DecimalString DecimalNat.
From stdpp Require Import gmap strings list fin_maps sorting.

(** ** Exceptions and outcomes *)

Inductive exn : Type :=
  | ValueError (msg : string)
  | FileNotFoundError (path : string).

Inductive outcome (A : Type) : Type :=
  | Ok (a : A)
  | Err (e : exn).
Arguments Ok {A} a.
Arguments Err {A} e.

Definition is_ok {A} (o : outcome A) : bool :=
  match o with Ok _ => true | Err _ => false end.

(** ** Records stored in the files *)

Record Config := mkConfig {
  cfg_name : string;
  cfg_members : list string;
  cfg_created : string
}.

Record Message := mkMessage {
  msg_id : string;
  msg_from : string;
  msg_to : string;
  msg_type : string;
  msg_text : string;
  msg_timestamp : string
}.

Record Task := mkTask {
  t_id : string;
  t_subject : string;
  t_description : string;
  t_status : string;
  t_assigned_to : option string;
  t_assigned_by : option string;
  t_created : string;
  t_claimed_at : option string;
  t_completed_at : option string;
  t_result : option string
}.

Record World := mkWorld {
  configs : gmap string Config;
  inboxes : gmap (string * string) (list Message);
  cursors : gmap (string * string) nat;
  tasks : gmap (string * string) Task;
  tick : nat
}.

Definition empty_world : World :=
  {| configs := ∅; inboxes := ∅; cursors := ∅; tasks := ∅; tick := 0 |}.

Definition set_configs (f : gmap string Config → gmap string Config) (w : World) : World :=
  {| configs := f (configs w); inboxes := inboxes w; cursors := cursors w;
     tasks := tasks w; tick := tick w |}.

Definition set_inboxes
    (f : gmap (string * string) (list Message) → gmap (string * string) (list Message))
    (w : World) : World :=
  {| configs := configs w; inboxes := f (inboxes w); cursors := cursors w;
     tasks := tasks w; tick := tick w |}.

Definition set_cursors
    (f : gmap (string * string) nat → gmap (string * string) nat) (w : World) : World :=
  {| configs := configs w; inboxes := inboxes w; cursors := f (cursors w);
     tasks := tasks w; tick := tick w |}.

Definition set_tasks
    (f : gmap (string * string) Task → gmap (string * string) Task) (w : World) : World :=
  {| configs := configs w; inboxes := inboxes w; cursors := cursors w;
     tasks := f (tasks w); tick := tick w |}.

(** ** The monad of calls: a world in, an outcome and a world out *)

Definition M (A : Type) : Type := World → outcome A * World.

#[global] Instance M_ret : MRet M := λ A a w, (Ok a, w).
#[global] Instance M_bind : MBind M := λ A B k m w,
  match m w with
  | (Ok a, w') => k a w'
  | (Err e, w') => (Err e, w')
  end.

Definition raise {A} (e : exn) : M A := λ w, (Err e, w).
Definition get : M World := λ w, (Ok w, w).
Definition modify (f : World → World) : M unit := λ w, (Ok tt, f w).

(** A [for] loop whose body may raise: the bodies run in list order and the
    first exception ends the loop, with the writes made so far left in
    place. *)
Fixpoint for_each {A B} (l : list A) (body : A → M (list B)) : M (list B) :=
  match l with
  | [] => mret []
  | x :: l' => ys ← body x; zs ← for_each l' body; mret (ys ++ zs)
  end.

(** ** Strings *)

(** [s.split(c, 1)] when [c] occurs in [s]; [None] when it does not. *)
Fixpoint split_first (c : ascii) (s : string) : option (string * string) :=
  match s with
  | EmptyString => None
  | String a s' =>
      if Ascii.eqb a c then Some (EmptyString, s')
      else match split_first c s' with
           | Some (l, r) => Some (String a l, r)
           | None => None
           end
  end.

(** [str(n)] for a natural number. *)
Definition str_nat (n : nat) : string := NilEmpty.string_of_uint (Nat.to_uint n).

(** A non-empty string is truthy. *)
Definition truthy (s : string) : bool :=
  match s with EmptyString => false | _ => true end.

(** [s or None] *)
Definition or_None (s : string) : option string :=
  if truthy s then Some s else None.

(** [_parse_identity] *)
Definition _parse_identity (identity : string) : M (string * string) :=
  match split_first "@" identity with
  | None => raise (ValueError ("Invalid identity '" +:+ identity +:+ "', expected name@team"))
  | Some (name, team) => mret (name, team)
  end.

(** [c in s] *)
Definition contains (c : ascii) (s : string) : Prop := In c (list_ascii_of_string s).

(** The file name of a task record, [f"{task_id}.json"]; [sorted] orders
    paths of one directory by their names, compared as strings. *)
Definition task_file (id : string) : string := id +:+ ".json".

Definition path_le (a b : string) : Prop := String.leb a b = true.

#[global] Instance path_le_dec : RelDecision path_le.
Proof. intros a b. unfold path_le. apply _. Defined.

Definition file_le (a b : string * Task) : Prop :=
  path_le (task_file a.1) (task_file b.1).

#[global] Instance file_le_dec : RelDecision file_le.
Proof. intros a b. unfold file_le. apply _. Defined.

(** [status is None or task["status"] == status] *)
Definition status_is (status : option string) (task : Task) : Prop :=
  match status with
  | None => True
  | Some s => t_status task = s
  end.

#[global] Instance status_is_dec status task : Decision (status_is status task).
Proof. destruct status; simpl; apply _. Defined.

Definition nl : string := String "010"%char EmptyString.
Definition dq : string := String "034"%char EmptyString.

(** [sep.join(parts)] *)
Fixpoint join (sep : string) (parts : list string) : string :=
  match parts with
  | [] => EmptyString
  | [p] => p
  | p :: ps => p +:+ sep +:+ join sep ps
  end.

(** ** The functions of [core.py] *)

Section Core.

(** [str(uuid.uuid4())[:8]] and [datetime.now(timezone.utc).isoformat()]:
    the [n]-th value each source hands out. *)
Variable uuid8 : nat → string.
Variable utc_now : nat → string.
(** [json.dumps(new_msgs, indent=2)] in [poll_inbox], and [json.dumps] of
    the task-assignment payload (task id, subject, description) in
    [create_task]. *)
Variable json_dumps : list Message → string.
Variable json_dumps_assignment : string → string → string → string.

Definition fresh : M nat :=
  λ w, (Ok (tick w),
        {| configs := configs w; inboxes := inboxes w; cursors := cursors w;
           tasks := tasks w; tick := S (tick w) |}).

Definition _now : M string := n ← fresh; mret (utc_now n).
Definition uuid4_8 : M string := n ← fresh; mret (uuid8 n).

Definition _config_path (team : string) : string := team +:+ "/config.json".

(** *** Team management *)

Definition create_team (team : string) (members : option (list string)) : M Config :=
  created ← _now;
  let config := mkConfig team (default [] members) created in
  modify (set_configs <[team := config]>);;
  modify (set_inboxes (λ ib, foldl (λ acc m, <[(team, m) := []]> acc) ib (default [] members)));;
  mret config.

Definition team_info (team : string) : M Config :=
  w ← get;
  match configs w !! team with
  | None => raise (FileNotFoundError (_config_path team))
  | Some config => mret config
  end.

Definition add_member (team name : string) : M Config :=
  config ← team_info team;
  config' ← (if bool_decide (name ∈ cfg_members config) then mret config
             else
               let c := mkConfig (cfg_name config) (cfg_members config ++ [name])
                                 (cfg_created config) in
               modify (set_configs <[team := c]>);; mret c);
  modify (set_inboxes <[(team, name) := []]>);;
  mret config'.

Definition remove_member (team name : string) : M Config :=
  config ← team_info team;
  let c := mkConfig (cfg_name config)
                    (filter (λ m, m ≠ name) (cfg_members config))
                    (cfg_created config) in
  modify (set_configs <[team := c]>);;
  modify (set_inboxes (delete (team, name)));;
  modify (set_cursors (delete (team, name)));;
  mret c.

(** *** Mailbox *)

Definition _append_to_inbox (team agent : string) (msg : Message) : M unit :=
  modify (set_inboxes (λ ib,
    <[(team, agent) := default [] (ib !! (team, agent)) ++ [msg]]> ib)).

Definition send_message (from_id to_id text : string) (type : option string) : M Message :=
  '(from_name, from_team) ← _parse_identity from_id;
  '(to_name, to_team) ← _parse_identity to_id;
  if bool_decide (from_team ≠ to_team)
  then raise (ValueError "Cross-team messaging not supported")
  else
    id ← uuid4_8;
    ts ← _now;
    let msg := mkMessage id from_name to_name (default "message" type) text ts in
    _append_to_inbox to_team to_name msg;;
    mret msg.

(** The body of the loop of [broadcast], for one member. *)
Definition broadcast_body (from_name team text : string) (type : option string)
    (member : string) : M (list Message) :=
  if bool_decide (member ≠ from_name)
  then
    id ← uuid4_8;
    ts ← _now;
    let msg := mkMessage id from_name member (default "broadcast" type) text ts in
    _append_to_inbox team member msg;;
    mret [msg]
  else mret [].

Definition broadcast (from_id text : string) (type : option string) : M (list Message) :=
  '(from_name, team) ← _parse_identity from_id;
  config ← team_info team;
  for_each (cfg_members config) (broadcast_body from_name team text type).

Definition xml_part (team : string) (msg : Message) : string :=
  "<teammate-message from=" +:+ dq +:+ msg_from msg +:+ dq +:+
  " team=" +:+ dq +:+ team +:+ dq +:+
  " type=" +:+ dq +:+ msg_type msg +:+ dq +:+
  " timestamp=" +:+ dq +:+ msg_timestamp msg +:+ dq +:+ ">" +:+ nl +:+
  msg_text msg +:+ nl +:+
  "</teammate-message>".

(** What [poll_inbox] returns for the slice [new_msgs]. *)
Definition render (format team : string) (new_msgs : list Message) : string :=
  match new_msgs with
  | [] => if bool_decide (format = "xml") then EmptyString else "[]"
  | _ =>
      if bool_decide (format = "json") then json_dumps new_msgs
      else join nl (xml_part team <$> new_msgs)
  end.

Definition poll_inbox (identity format : string) : M string :=
  '(name, team) ← _parse_identity identity;
  w ← get;
  match inboxes w !! (team, name) with
  | None => mret (if bool_decide (format = "xml") then EmptyString else "[]")
  | Some messages =>
      let cursor := default 0 (cursors w !! (team, name)) in
      let new_msgs := drop cursor messages in
      modify (set_cursors <[(team, name) := length messages]>);;
      mret (render format team new_msgs)
  end.

Definition read_inbox (identity : string) : M (list Message) :=
  '(name, team) ← _parse_identity identity;
  w ← get;
  match inboxes w !! (team, name) with
  | None => mret []
  | Some messages => mret messages
  end.

(** *** Tasks *)

(** The task files of a team, [tasks_dir.glob("*.json")], as pairs of the
    task id in the file name and the record in the file. *)
Definition task_files (team : string) (w : World) : list (string * Task) :=
  omap (λ kv : string * string * Task,
          if bool_decide (kv.1.1 = team) then Some (kv.1.2, kv.2) else None)
       (map_to_list (tasks w)).

Definition create_task (team subject description assigned_to assigned_by : string)
    : M Task :=
  w ← get;
  let existing := task_files team w in
  let task_id := str_nat (length existing + 1) in
  created ← _now;
  let task :=
    {| t_id := task_id; t_subject := subject; t_description := description;
       t_status := "pending";
       t_assigned_to := or_None assigned_to;
       t_assigned_by := or_None assigned_by;
       t_created := created;
       t_claimed_at := None; t_completed_at := None; t_result := None |} in
  modify (set_tasks <[(team, task_id) := task]>);;
  (if truthy assigned_to && truthy assigned_by
   then
     send_message (assigned_by +:+ "@" +:+ team) (assigned_to +:+ "@" +:+ team)
                  (json_dumps_assignment task_id subject description)
                  (Some "task_assignment");;
     mret tt
   else mret tt);;
  mret task.

(** The task file [tasks_dir / f"{task_id}.json"] is read as the key
    [(team, task_id)] of [tasks]; it is that file when [team] is the name of
    a directory and [task_id] holds no ['/'] ([dir_name] and [file_stem]
    below). *)
Definition claim_task (team task_id agent : string) : M Task :=
  w ← get;
  match tasks w !! (team, task_id) with
  | None => raise (ValueError ("Task " +:+ task_id +:+ " not found"))
  | Some task =>
      if bool_decide (t_status task ≠ "pending")
      then raise (ValueError ("Task " +:+ task_id +:+ " is " +:+ t_status task
                              +:+ ", cannot claim"))
      else
        claimed ← _now;
        let task' :=
          {| t_id := t_id task; t_subject := t_subject task;
             t_description := t_description task;
             t_status := "in_progress";
             t_assigned_to := Some agent;
             t_assigned_by := t_assigned_by task;
             t_created := t_created task;
             t_claimed_at := Some claimed;
             t_completed_at := t_completed_at task;
             t_result := t_result task |} in
        modify (set_tasks <[(team, task_id) := task']>);;
        mret task'
  end.

Definition complete_task (team task_id agent : string) (result : option string)
    : M Task :=
  w ← get;
  match tasks w !! (team, task_id) with
  | None => raise (ValueError ("Task " +:+ task_id +:+ " not found"))
  | Some task =>
      if bool_decide (t_status task ≠ "in_progress")
      then raise (ValueError ("Task " +:+ task_id +:+ " is " +:+ t_status task
                              +:+ ", cannot complete"))
      else
        completed ← _now;
        let task' :=
          {| t_id := t_id task; t_subject := t_subject task;
             t_description := t_description task;
             t_status := "completed";
             t_assigned_to := t_assigned_to task;
             t_assigned_by := t_assigned_by task;
             t_created := t_created task;
             t_claimed_at := t_claimed_at task;
             t_completed_at := Some completed;
             t_result := Some (default EmptyString result) |} in
        modify (set_tasks <[(team, task_id) := task']>);;
        mret task'
  end.

(** [sorted(tasks_dir.glob("*.json"))]: the files ordered by path. *)
Definition sorted_task_files (team : string) (w : World) : list (string * Task) :=
  merge_sort file_le (task_files team w).

Definition list_tasks (team : string) (status : option string) : M (list Task) :=
  w ← get;
  mret (filter (status_is status) (snd <$> sorted_task_files team w)).

End Core.

(** ** The steps of [create_task] *)

Section CreateTaskSteps.

Variable uuid8 : nat → string.
Variable utc_now : nat → string.
Variable json_dumps_assignment : string → string → string → string.

(** The record [create_task] builds in world [w]. *)
Definition new_task (team subject description assigned_to assigned_by : string)
    (w : World) : Task :=
  {| t_id := str_nat (length (task_files team w) + 1);
     t_subject := subject; t_description := description;
     t_status := "pending";
     t_assigned_to := or_None assigned_to;
     t_assigned_by := or_None assigned_by;
     t_created := utc_now (tick w);
     t_claimed_at := None; t_completed_at := None; t_result := None |}.

(** The world right after [create_task] has written the record, before it
    looks at the assignee. *)
Definition task_written (team subject description assigned_to assigned_by : string)
    (w : World) : World :=
  let task := new_task team subject description assigned_to assigned_by w in
  set_tasks <[(team, t_id task) := task]> (fresh w).2.

(** The notification [create_task] sends, as a call on a world. *)
Definition notify (team subject description assigned_to assigned_by : string)
    (w : World) : M Message :=
  send_message uuid8 utc_now (assigned_by +:+ "@" +:+ team) (assigned_to +:+ "@" +:+ team)
    (json_dumps_assignment (str_nat (length (task_files team w) + 1)) subject description)
    (Some "task_assignment").

End CreateTaskSteps.

(** ** Sequences of calls *)


(** The public operations, as the command line reaches them. *)
Inductive Call : Type :=
  | CreateTeam (team : string) (members : option (list string))
  | AddMember (team name : string)
  | RemoveMember (team name : string)
  | Send (from_id to_id text : string) (type : option string)
  | Broadcast (from_id text : string) (type : option string)
  | Poll (who format : string)
  | ReadAll (who : string)
  | CreateTask (team subject description assigned_to assigned_by : string)
  | ClaimTask (team task_id agent : string)
  | CompleteTask (team task_id agent : string) (result : option string)
  | ListTasks (team : string) (status : option string).


Section Calls.

Variable uuid8 : nat → string.
Variable utc_now : nat → string.
Variable json_dumps : list Message → string.
Variable json_dumps_assignment : string → string → string → string.

(** The world a call leaves behind, whether it returns or raises. *)
Definition exec (c : Call) (w : World) : World :=
  match c with
  | CreateTeam team members => (create_team utc_now team members w).2
  | AddMember team name => (add_member team name w).2
  | RemoveMember team name => (remove_member team name w).2
  | Send from_id to_id text type => (send_message uuid8 utc_now from_id to_id text type w).2
  | Broadcast from_id text type => (broadcast uuid8 utc_now from_id text type w).2
  | Poll who format => (poll_inbox json_dumps who format w).2
  | ReadAll who => (read_inbox who w).2
  | CreateTask team subject description assigned_to assigned_by =>
      (create_task uuid8 utc_now json_dumps_assignment
                   team subject description assigned_to assigned_by w).2
  | ClaimTask team task_id agent => (claim_task utc_now team task_id agent w).2
  | CompleteTask team task_id agent result =>
      (complete_task utc_now team task_id agent result w).2
  | ListTasks team status => (list_tasks team status w).2
  end.


Definition exec_all (cs : list Call) (w : World) : World := foldl (λ w c, exec c w) w cs.

End Calls.

(** The cursor of a mailbox as [poll_inbox] reads it (0 when the cursor file
    is absent) and its message sequence (empty when the inbox file is). *)
Definition cursor_of (w : World) (team agent : string) : nat :=
  default 0 (cursors w !! (team, agent)).

Definition messages_of (w : World) (team agent : string) : list Message :=
  default [] (inboxes w !! (team, agent)).

(** The bound the cursor is meant to keep: no mailbox has a cursor beyond
    the end of its message sequence. *)
Definition cursor_le_length (w : World) : Prop :=
  ∀ team agent, cursor_of w team agent ≤ length (messages_of w team agent).

(** A world [w'] reached from [w] by appending to inboxes only. *)
Definition appended (w w' : World) : Prop :=
  cursors w' = cursors w ∧
  ∀ team agent, ∃ more, messages_of w' team agent = messages_of w team agent ++ more.

(** The calls that write an empty inbox file, and the one that deletes a
    mailbox. *)
Definition resets_inbox (c : Call) : bool :=
  match c with CreateTeam _ _ | AddMember _ _ => true | _ => false end.

Definition is_RemoveMember (c : Call) : bool :=
  match c with RemoveMember _ _ => true | _ => false end.

Definition is_Poll (c : Call) : bool :=
  match c with Poll _ _ => true | _ => false end.

(** ** The remaining team functions *)

(** The team directories under [TEAMS_ROOT]: a directory is there exactly
    when it holds a file, since every function that makes one writes a file
    into it and [delete_team] removes the directory with its files. *)
Definition team_dirs (w : World) : list string :=
  remove_dups ((map_to_list (configs w)).*1 ++ (map_to_list (inboxes w)).*1.*1 ++
               (map_to_list (cursors w)).*1.*1 ++ (map_to_list (tasks w)).*1.*1).

(** What [shutil.rmtree] of a team directory leaves of one kind of file. *)
Definition rmtree {A} (team : string) (m : gmap (string * string) A)
    : gmap (string * string) A :=
  filter (λ kv : string * string * A, kv.1.1 ≠ team) m.

(** [TEAMS_ROOT / team] is taken as the directory of the files keyed by
    [team]; it is that directory when [team] is the name of a directory
    ([dir_name] below), and not for the empty name, ["."], [".."] or a path
    of several components. *)
Definition delete_team (team : string) : M bool :=
  w ← get;
  if bool_decide (team ∈ team_dirs w)
  then
    modify (λ w, {| configs := delete team (configs w);
                    inboxes := rmtree team (inboxes w);
                    cursors := rmtree team (cursors w);
                    tasks := rmtree team (tasks w);
                    tick := tick w |});;
    mret true
  else mret false.

(** [sorted(TEAMS_ROOT.iterdir())], and of these the directories with a
    [config.json], each read. *)
Definition list_teams : M (list Config) :=
  w ← get;
  mret (omap (λ d, configs w !! d) (merge_sort path_le (team_dirs w))).

(** ** All the functions as operations *)

Inductive Op : Type :=
  | Public (c : Call)
  | DeleteTeam (team : string)
  | ListTeams
  | TeamInfo (team : string).

Section Ops.

Variable uuid8 : nat → string.
Variable utc_now : nat → string.
Variable json_dumps : list Message → string.
Variable json_dumps_assignment : string → string → string → string.

Definition run (o : Op) (w : World) : World :=
  match o with
  | Public c => exec uuid8 utc_now json_dumps json_dumps_assignment c w
  | DeleteTeam team => (delete_team team w).2
  | ListTeams => (list_teams w).2
  | TeamInfo team => (team_info team w).2
  end.

Definition run_all (os : list Op) (w : World) : World := foldl (λ w o, run o w) w os.





End Ops.

(** ** The shape of task records *)

(** How far along its life a status is. *)
Definition status_rank (status : string) : option nat :=
  if bool_decide (status = "pending") then Some 0
  else if bool_decide (status = "in_progress") then Some 1
  else if bool_decide (status = "completed") then Some 2
  else None.

(** The fields a record has set at each status. *)
Definition task_wf (t : Task) : Prop :=
  match status_rank (t_status t) with
  | Some 0 => t_claimed_at t = None ∧ t_completed_at t = None ∧ t_result t = None
  | Some 1 =>
      is_Some (t_claimed_at t) ∧ is_Some (t_assigned_to t) ∧
      t_completed_at t = None ∧ t_result t = None
  | Some _ =>
      is_Some (t_claimed_at t) ∧ is_Some (t_assigned_to t) ∧
      is_Some (t_completed_at t) ∧ is_Some (t_result t)
  | None => False
  end.

(** The task files of every team are numbered 1 to their count, and each
    record carries the id of its file and is well formed. *)
Definition tasks_ok (w : World) : Prop :=
  (∀ team id, is_Some (tasks w !! (team, id))
              ↔ ∃ i, 1 ≤ i ≤ length (task_files team w) ∧ id = str_nat i) ∧
  (∀ team id t, tasks w !! (team, id) = Some t → t_id t = id ∧ task_wf t).

(** ** Names that are path components *)

Definition has_slash (s : string) : bool :=
  existsb (Ascii.eqb "/") (list_ascii_of_string s).

(** An agent name or task id [s] for which [dir / f"{s}.json"] is the file
    [s.json] of [dir] itself. *)
Definition file_stem (s : string) : bool := negb (has_slash s).

(** A team name [s] for which [TEAMS_ROOT / s] is a directory of its own
    right under [TEAMS_ROOT]: not [TEAMS_ROOT] itself (the empty name and
    ["."]), not its parent, not a path of several components. *)
Definition dir_name (s : string) : bool :=
  negb (bool_decide (s = EmptyString)) && negb (bool_decide (s = ".")) &&
  negb (bool_decide (s = "..")) && negb (has_slash s).

(** An identity that, when it parses, names a mailbox by such names. *)
Definition identity_ok (identity : string) : bool :=
  match split_first "@" identity with
  | Some (name, team) => dir_name team && file_stem name
  | None => true
  end.

(** A world whose keys, and whose member lists, hold such names, so that
    different keys are different files. *)
Definition names_ok (w : World) : Prop :=
  map_Forall (λ team config,
                dir_name team = true ∧ forallb file_stem (cfg_members config) = true)
             (configs w) ∧
  map_Forall (λ (k : string * string) _, dir_name k.1 = true ∧ file_stem k.2 = true)
             (inboxes w) ∧
  map_Forall (λ (k : string * string) _, dir_name k.1 = true ∧ file_stem k.2 = true)
             (cursors w) ∧
  map_Forall (λ (k : string * string) _, dir_name k.1 = true ∧ file_stem k.2 = true)
             (tasks w).

(** A call whose arguments are such names. *)
Definition call_ok (c : Call) : bool :=
  match c with
  | CreateTeam team members => dir_name team && forallb file_stem (default [] members)
  | AddMember team name | RemoveMember team name => dir_name team && file_stem name
  | Send from_id to_id _ _ => identity_ok from_id && identity_ok to_id
  | Broadcast from_id _ _ => identity_ok from_id
  | Poll who _ | ReadAll who => identity_ok who
  | CreateTask team _ _ assigned_to assigned_by =>
      dir_name team && identity_ok (assigned_by +:+ "@" +:+ team) &&
      identity_ok (assigned_to +:+ "@" +:+ team)
  | ClaimTask team task_id _ | CompleteTask team task_id _ _ =>
      dir_name team && file_stem task_id
  | ListTasks team _ => dir_name team
  end.

Definition op_ok (o : Op) : bool :=
  match o with
  | Public c => call_ok c
  | DeleteTeam team | TeamInfo team => dir_name team
  | ListTeams => true
  end.

Section NamedOps.

Variable uuid8 : nat → string.
Variable utc_now : nat → string.
Variable json_dumps : list Message → string.
Variable json_dumps_assignment : string → string → string → string.

(** The worlds built from an empty [TEAMS_ROOT] by operations on such
    names. *)
Definition reachable_named (w : World) : Prop :=
  ∃ os, forallb op_ok os = true ∧
        w = run_all uuid8 utc_now json_dumps json_dumps_assignment os empty_world.

End NamedOps.

(** ** Sources of ids and timestamps for the worked examples *)

Definition ex_uuid8 (n : nat) : string := "id" +:+ str_nat n.
Definition ex_now (n : nat) : string := "T" +:+ str_nat n.
Definition ex_dumps (l : list Message) : string := join "," (msg_text <$> l).
Definition ex_dumps_assignment (task_id subject description : string) : string :=
  "task_assignment " +:+ task_id +:+ " " +:+ subject +:+ " " +:+ description.


(** The world after [create_task("t", "fix bug")] on an empty directory, and
    the record that call stores as task 1. *)
Definition ex_task_world : World :=
  (create_task ex_uuid8 ex_now ex_dumps_assignment
               "t" "fix bug" EmptyString EmptyString EmptyString empty_world).2.

Definition ex_pending : Task :=
  {| t_id := "1"; t_subject := "fix bug"; t_description := EmptyString;
     t_status := "pending"; t_assigned_to := None; t_assigned_by := None;
     t_created := "T0"; t_claimed_at := None; t_completed_at := None;
     t_result := None |}.

(** The world after [create_team("bc", ["lead", "w1", "w2"])]. *)
Definition ex_bc_world : World :=
  (create_team ex_now "bc" (Some ["lead"; "w1"; "w2"]) empty_world).2.


(** Ten tasks created one after the other in team ["t"]. *)
Definition ex_ten_world : World :=
  exec_all ex_uuid8 ex_now ex_dumps ex_dumps_assignment
    (replicate 10 (CreateTask "t" "job" EmptyString EmptyString EmptyString))
    empty_world.

(** [a] of team ["t"] receives a message and polls it, then is added to the
    team a second time. *)
Definition ex_readd_calls : list Call :=
  [CreateTeam "t" (Some ["a"; "b"]);
   Send "b@t" "a@t" "hi" None;
   Poll "a@t" "xml";
   AddMember "t" "a"].

Definition ex_readd_world : World :=
  exec_all ex_uuid8 ex_now ex_dumps ex_dumps_assignment ex_readd_calls empty_world.


(** A team is created, two tasks are created, the first is claimed and
    completed, and a team that never existed is deleted. *)
Definition ex_task_ops : list Op :=
  [Public (CreateTeam "t" (Some ["a"; "b"]));
   Public (CreateTask "t" "one" EmptyString EmptyString EmptyString);
   Public (CreateTask "t" "two" "details" "b" "a");
   Public (ClaimTask "t" "1" "b");
   Public (CompleteTask "t" "1" "b" (Some "done"));
   DeleteTeam "u"].

Definition ex_ops_world : World :=
  run_all ex_uuid8 ex_now ex_dumps ex_dumps_assignment ex_task_ops empty_world.

(** Task 1 of [ex_ops_world], completed. *)
Definition ex_done : Task :=
  {| t_id := "1"; t_subject := "one"; t_description := EmptyString;
     t_status := "completed"; t_assigned_to := Some "b"; t_assigned_by := None;
     t_created := "T1"; t_claimed_at := Some "T5"; t_completed_at := Some "T6";
     t_result := Some "done" |}.

(** * Properties *)

(** ** Splitting an identity *)

Lemma split_first_None c s :
  split_first c s = None ↔ ¬ contains c s.
Proof.
  unfold contains. induction s as [|a s IH]; simpl.
  - split; [intros _ [] | done].
  - destruct (Ascii.eqb_spec a c) as [->|Hne].
    + split; [done | intros H; destruct H; by left].
    + destruct (split_first c s) as [[l r]|].
      * split; [done|]. intros H. exfalso.
        assert (Hc : ¬ In c (list_ascii_of_string s)) by (intros ?; apply H; by right).
        apply IH in Hc. done.
      * split; [|done]. intros _ [?|?]; [done|]. by apply IH.
Qed.

Lemma split_first_Some c s l r :
  split_first c s = Some (l, r) ↔ s = l +:+ String c r ∧ ¬ contains c l.
Proof.
  unfold contains. revert l. induction s as [|a s IH]; intros l; simpl.
  - split; [done|]. intros [H _]. by destruct l.
  - destruct (Ascii.eqb_spec a c) as [->|Hne].
    + split.
      * intros [= <- <-]. split; [done | intros []].
      * intros [H Hl]. destruct l as [|b l]; simpl in *.
        -- by injection H as ->.
        -- injection H as -> ->. exfalso. apply Hl. by left.
    + destruct (split_first c s) as [[l' r']|] eqn:E.
      * split.
        -- intros [= <- <-]. destruct (proj1 (IH l') eq_refl) as [-> Hl'].
           split; [done|]. simpl. intros [?|?]; done.
        -- intros [H Hl]. destruct l as [|b l]; simpl in *.
           ++ injection H as -> _. done.
           ++ injection H as -> ->.
              assert (Some (l', r') = Some (l, r)) as [= -> ->]; [|done].
              apply IH. split; [done|]. intros ?. apply Hl. by right.
      * split; [done|]. intros [H Hl]. destruct l as [|b l]; simpl in *.
        -- injection H as -> _. done.
        -- injection H as -> ->.
           assert (None = Some (l, r)); [|done].
           apply IH. split; [done|]. intros ?. apply Hl. by right.
Qed.


(** ** Running a call *)

Ltac run_M :=
  unfold mbind, M_bind, mret, M_ret, raise, get, modify, _now, uuid4_8, fresh in *;
  simpl in *.

Section Mailbox.

Variable uuid8 : nat → string.
Variable utc_now : nat → string.
Variable json_dumps : list Message → string.

Lemma _parse_identity_ok ident name team w :
  split_first "@" ident = Some (name, team) →
  _parse_identity ident w = (Ok (name, team), w).
Proof. intros H. unfold _parse_identity. by rewrite H. Qed.




End Mailbox.


(** ** Polling and reading an inbox *)

Section Polling.

Variable json_dumps : list Message → string.

(** One call of [poll_inbox] on a well-formed identity: it returns the
    rendering of the messages from the cursor on, and moves the cursor to
    the end of the inbox when the inbox file exists. *)
Lemma poll_inbox_run ident name team format w :
  split_first "@" ident = Some (name, team) →
  poll_inbox json_dumps ident format w
  = (Ok (render json_dumps format team
           (drop (cursor_of w team name) (messages_of w team name))),
     match inboxes w !! (team, name) with
     | None => w
     | Some ms => set_cursors <[(team, name) := length ms]> w
     end).
Proof.
  intros Hid. unfold poll_inbox. run_M. rewrite (_parse_identity_ok _ _ _ _ Hid).
  unfold messages_of, cursor_of.
  destruct (inboxes w !! (team, name)) as [ms|]; simpl; [done|].
  by rewrite drop_nil.
Qed.

Lemma poll_inbox_keeps_log ident format w :
  inboxes (poll_inbox json_dumps ident format w).2 = inboxes w.
Proof.
  unfold poll_inbox, _parse_identity. run_M.
  destruct (split_first "@" ident) as [[name team]|]; [|done]. simpl.
  by destruct (inboxes w !! (team, name)).
Qed.





End Polling.



(** ** [read_inbox] is a pure read *)

Section ReadAll.

Variable uuid8 : nat → string.
Variable utc_now : nat → string.
Variable json_dumps : list Message → string.
Variable json_dumps_assignment : string → string → string → string.

Lemma read_inbox_world ident w : (read_inbox ident w).2 = w.
Proof.
  unfold read_inbox, _parse_identity. run_M.
  destruct (split_first "@" ident) as [[name team]|]; [|done]. simpl.
  by destruct (inboxes w !! (team, name)).
Qed.

Lemma exec_ReadAll ident w :
  exec uuid8 utc_now json_dumps json_dumps_assignment (ReadAll ident) w = w.
Proof. apply read_inbox_world. Qed.


End ReadAll.


(** ** Claiming and completing a task *)

Section TaskLifecycle.

Variable utc_now : nat → string.

(** C1. [claim_task] raises a [ValueError] and writes nothing when no task
    file has the id, and when the stored status is anything but
    ["pending"] (["in_progress"] and ["completed"] among them).  On a
    pending task it returns the task with status ["in_progress"],
    [assigned_to] the claiming agent and [claimed_at] the current time, the
    other fields as stored, and stores that record under the same id.
    This is for a team that is a directory name and a task id that holds no
    ['/'], in a world keyed by such names: there the key [(team, task_id)]
    is the file [claim_task] opens. *)
Theorem claim_task_spec (team task_id agent : string) (w : World) :
  dir_name team = true → file_stem task_id = true → names_ok w →
  (tasks w !! (team, task_id) = None →
     claim_task utc_now team task_id agent w
     = (Err (ValueError ("Task " +:+ task_id +:+ " not found")), w)) ∧
  (∀ task, tasks w !! (team, task_id) = Some task →
     (t_status task ≠ "pending" →
        claim_task utc_now team task_id agent w
        = (Err (ValueError ("Task " +:+ task_id +:+ " is " +:+ t_status task
                            +:+ ", cannot claim")), w)) ∧
     (t_status task = "pending" →
        ∃ task' w',
          claim_task utc_now team task_id agent w = (Ok task', w') ∧
          t_status task' = "in_progress" ∧
          t_assigned_to task' = Some agent ∧
          t_claimed_at task' = Some (utc_now (tick w)) ∧
          t_id task' = t_id task ∧ t_subject task' = t_subject task ∧
          t_description task' = t_description task ∧
          t_assigned_by task' = t_assigned_by task ∧
          t_created task' = t_created task ∧
          t_completed_at task' = t_completed_at task ∧
          t_result task' = t_result task ∧
          tasks w' = <[(team, task_id) := task']> (tasks w) ∧
          inboxes w' = inboxes w ∧ cursors w' = cursors w ∧ configs w' = configs w)).
Proof.
  intros _ _ _. split.
  - intros Hno. unfold claim_task. run_M. by rewrite Hno.
  - intros task Hsome. unfold claim_task. run_M. rewrite Hsome. split; intros Hst.
    + by rewrite bool_decide_eq_true_2.
    + rewrite bool_decide_eq_false_2 by (intros ?; done).
      eexists _, _. split; [done|]. simpl. done.
Qed.


End TaskLifecycle.

(** [claim_task_spec] at work on the task of [ex_task_world]: [b] claims
    it, after which [a] cannot; and there is no task 2 to claim. *)
Lemma claim_task_spec_witness :
  ∃ task' w',
    claim_task ex_now "t" "1" "b" ex_task_world = (Ok task', w') ∧
    t_status task' = "in_progress" ∧ t_assigned_to task' = Some "b" ∧
    claim_task ex_now "t" "1" "a" w'
    = (Err (ValueError "Task 1 is in_progress, cannot claim"), w') ∧
    claim_task ex_now "t" "2" "b" ex_task_world
    = (Err (ValueError "Task 2 not found"), ex_task_world).
Proof.
  assert (Hok : names_ok ex_task_world)
    by (apply (bool_decide_unpack _); vm_compute; exact I).
  destruct (claim_task_spec ex_now "t" "1" "b" ex_task_world eq_refl eq_refl Hok)
    as [_ H].
  destruct (H ex_pending ltac:(vm_compute; reflexivity)) as [_ Hp].
  destruct (Hp eq_refl) as (task' & w' & Hrun & Hst & Hto & _ & _ & _ & _ & _ & _ & _ & _
                            & Htasks & _).
  assert (Hw' : w' = (claim_task ex_now "t" "1" "b" ex_task_world).2)
    by (by rewrite Hrun).
  assert (Hok' : names_ok w')
    by (rewrite Hw'; apply (bool_decide_unpack _); vm_compute; exact I).
  exists task', w'. split; [exact Hrun|]. split; [exact Hst|]. split; [exact Hto|]. split.
  - destruct (claim_task_spec ex_now "t" "1" "a" w' eq_refl eq_refl Hok') as [_ H'].
    destruct (H' task') as [Herr _].
    + rewrite Htasks. apply lookup_insert_eq.
    + rewrite Hst in Herr. apply Herr. discriminate.
  - apply (claim_task_spec ex_now "t" "2" "b" ex_task_world eq_refl eq_refl Hok).
    vm_compute; reflexivity.
Defined.


(** ** Broadcast *)

Lemma filter_none {A} (P : A → Prop) `{∀ x, Decision (P x)} (l : list A) :
  (∀ x, x ∈ l → ¬ P x) → filter P l = [].
Proof.
  induction l as [|x l IH]; intros Hl; [done|].
  rewrite filter_cons_False by (apply Hl; by left).
  apply IH. intros y Hy. apply Hl. by right.
Qed.


Section Broadcast.

Variable uuid8 : nat → string.
Variable utc_now : nat → string.

Lemma for_each_cons {A B} (x : A) (l : list A) (body : A → M (list B)) w :
  for_each (x :: l) body w
  = match body x w with
    | (Ok ys, w1) =>
        match for_each l body w1 with
        | (Ok zs, w2) => (Ok (ys ++ zs), w2)
        | (Err e, w2) => (Err e, w2)
        end
    | (Err e, w1) => (Err e, w1)
    end.
Proof.
  simpl. unfold mbind, M_bind, mret, M_ret.
  destruct (body x w) as [[ys|e] w1]; [|done].
  by destruct (for_each l body w1) as [[zs|e] w2].
Qed.

Lemma broadcast_body_self from_name team text type member w :
  member = from_name →
  broadcast_body uuid8 utc_now from_name team text type member w = (Ok [], w).
Proof. intros ->. unfold broadcast_body. by rewrite bool_decide_eq_false_2 by (intros ?; done). Qed.

Lemma broadcast_body_other from_name team text type member w :
  member ≠ from_name →
  broadcast_body uuid8 utc_now from_name team text type member w
  = let msg := mkMessage (uuid8 (tick w)) from_name member (default "broadcast" type)
                         text (utc_now (S (tick w))) in
    (Ok [msg],
     set_inboxes (λ ib, <[(team, member) := default [] (ib !! (team, member)) ++ [msg]]> ib)
       {| configs := configs w; inboxes := inboxes w; cursors := cursors w;
          tasks := tasks w; tick := S (S (tick w)) |}).
Proof. intros H. unfold broadcast_body. by rewrite bool_decide_eq_true_2. Qed.

Lemma broadcast_loop from_name team text type members w :
  ∃ msgs w',
    for_each members (broadcast_body uuid8 utc_now from_name team text type) w
    = (Ok msgs, w') ∧
    msg_to <$> msgs = filter (λ m, m ≠ from_name) members ∧
    Forall (λ m, msg_from m = from_name ∧ msg_text m = text ∧
                 msg_type m = default "broadcast" type) msgs ∧
    (∀ a, messages_of w' team a
          = messages_of w team a ++ filter (λ m, msg_to m = a) msgs) ∧
    (∀ t a, t ≠ team ∨ a ∉ members ∨ a = from_name →
            inboxes w' !! (t, a) = inboxes w !! (t, a)) ∧
    cursors w' = cursors w ∧ configs w' = configs w ∧ tasks w' = tasks w.
Proof.
  revert w. induction members as [|member members IH]; intros w.
  - exists [], w. simpl. split_and!; try done.
    intros a. by rewrite app_nil_r.
  - rewrite for_each_cons.
    destruct (decide (member = from_name)) as [Hm|Hm].
    2: { rewrite broadcast_body_other by done. cbv zeta.
      set (msg := mkMessage _ _ _ _ _ _).
      set (w1 := set_inboxes _ _).
      destruct (IH w1) as (msgs & w' & Hrun & Hto & Hall & Hmsgs & Hother & Hc & Hcf & Ht).
      exists (msg :: msgs), w'.
      rewrite Hrun. split_and!; try done.
      * rewrite filter_cons_True by done. rewrite fmap_cons. by rewrite Hto.
      * by constructor.
      * intros a. rewrite Hmsgs. unfold messages_of at 1. unfold w1 at 1. simpl.
        destruct (decide (member = a)) as [->|Hne].
        -- rewrite lookup_insert_eq, filter_cons_True by done. simpl.
           by rewrite <- app_assoc.
        -- rewrite lookup_insert_ne by congruence.
           by rewrite filter_cons_False by done.
      * intros t a Hta. rewrite Hother.
        -- unfold w1. simpl. apply lookup_insert_ne. intros [= <- <-].
           destruct Hta as [?|[Hn|?]]; [done| |done]. apply Hn. by left.
        -- destruct Hta as [?|[Hn|?]]; [by left| |by right; right].
           right; left. intros ?. apply Hn. by right. }
    rewrite broadcast_body_self by done.
    destruct (IH w) as (msgs & w' & Hrun & Hto & Hall & Hmsgs & Hother & Hc & Hcf & Ht).
    exists msgs, w'. rewrite Hrun. rewrite app_nil_l. split_and!; try done.
    + rewrite filter_cons_False; [done|]. intros ?; done.
    + intros t a Hta. apply Hother.
      destruct Hta as [?|[Hn|?]]; [by left| |by right; right].
      right; left. intros ?. apply Hn. by right.
Qed.


End Broadcast.


(** ** Creating a task *)



Section CreateTask.

Variable uuid8 : nat → string.
Variable utc_now : nat → string.
Variable json_dumps_assignment : string → string → string → string.


Lemma send_message_cross from_id to_id text type from_name from_team to_name to_team w :
  split_first "@" from_id = Some (from_name, from_team) →
  split_first "@" to_id = Some (to_name, to_team) →
  from_team ≠ to_team →
  send_message uuid8 utc_now from_id to_id text type w
  = (Err (ValueError "Cross-team messaging not supported"), w).
Proof.
  intros Ef Et Hne. unfold send_message. run_M.
  rewrite (_parse_identity_ok _ _ _ _ Ef), (_parse_identity_ok _ _ _ _ Et).
  by rewrite bool_decide_eq_true_2.
Qed.

Lemma send_message_same from_id to_id text type from_name to_name team w :
  split_first "@" from_id = Some (from_name, team) →
  split_first "@" to_id = Some (to_name, team) →
  send_message uuid8 utc_now from_id to_id text type w
  = let msg := mkMessage (uuid8 (tick w)) from_name to_name (default "message" type)
                         text (utc_now (S (tick w))) in
    (Ok msg,
     {| configs := configs w;
        inboxes := <[(team, to_name) := messages_of w team to_name ++ [msg]]> (inboxes w);
        cursors := cursors w; tasks := tasks w; tick := S (S (tick w)) |}).
Proof.
  intros Ef Et. unfold send_message. run_M.
  rewrite (_parse_identity_ok _ _ _ _ Ef), (_parse_identity_ok _ _ _ _ Et).
  by rewrite bool_decide_eq_false_2 by (intros ?; done).
Qed.

Lemma create_task_run team subject description assigned_to assigned_by w :
  create_task uuid8 utc_now json_dumps_assignment
              team subject description assigned_to assigned_by w
  = let task := new_task utc_now team subject description assigned_to assigned_by w in
    let w1 := task_written utc_now team subject description assigned_to assigned_by w in
    if truthy assigned_to && truthy assigned_by
    then
      match notify uuid8 utc_now json_dumps_assignment
                   team subject description assigned_to assigned_by w w1 with
      | (Ok _, w2) => (Ok task, w2)
      | (Err e, w2) => (Err e, w2)
      end
    else (Ok task, w1).
Proof.
  unfold create_task, notify, task_written, new_task. run_M.
  destruct (truthy assigned_to && truthy assigned_by); [|done].
  by destruct (send_message _ _ _ _ _ _ _) as [[msg|e] w2].
Qed.



End CreateTask.



(** ** Listing tasks *)

(** C3 does not hold of the code: [list_tasks] orders the task files by
    path, so by file name as a string.  With ten tasks, created with ids
    ["1"] to ["10"], task ["10"] is listed right after task ["1"] and before
    task ["2"]. *)
Theorem list_tasks_ten_order :
  t_id <$> (tasks ex_ten_world !! ("t", "10")) = Some "10" ∧
  ∃ ts, list_tasks "t" None ex_ten_world = (Ok ts, ex_ten_world) ∧
        t_id <$> ts = ["1"; "10"; "2"; "3"; "4"; "5"; "6"; "7"; "8"; "9"].
Proof.
  split; [vm_compute; reflexivity|].
  eexists. split; [reflexivity|]. vm_compute. reflexivity.
Qed.

(** ** The cursor after a member is added again *)

(** C4 does not hold of the code: [add_member] on a name that is already a
    member writes an empty inbox over the old one and leaves the cursor
    file alone.  After [ex_readd_calls] the cursor of [a@t] is 1 and its
    message sequence is empty.  A poll in that world writes the cursor back
    to 0; and if a message is sent to [a] first, the poll returns nothing
    although that message was never delivered. *)
Theorem add_member_stale_cursor :
  cursors ex_readd_world !! ("t", "a") = Some 1 ∧
  inboxes ex_readd_world !! ("t", "a") = Some [] ∧
  cursors (poll_inbox ex_dumps "a@t" "xml" ex_readd_world).2 !! ("t", "a") = Some 0 ∧
  let w1 := (send_message ex_uuid8 ex_now "b@t" "a@t" "again" None ex_readd_world).2 in
  length (messages_of w1 "t" "a") = 1 ∧
  (poll_inbox ex_dumps "a@t" "xml" w1).1 = Ok EmptyString.
Proof. vm_compute. done. Qed.

(** ** What [list_tasks] does guarantee *)



Lemma ten_before_two :
  path_le (task_file "10") (task_file "2") ∧ ¬ path_le (task_file "2") (task_file "10").
Proof. split; [reflexivity | discriminate]. Qed.

(** ** What the other calls do to inboxes and cursors *)

Lemma appended_refl w : appended w w.
Proof. split; [done|]. intros t a. exists []. by rewrite app_nil_r. Qed.

Lemma appended_trans w1 w2 w3 : appended w1 w2 → appended w2 w3 → appended w1 w3.
Proof.
  intros [Hc1 Hm1] [Hc2 Hm2]. split; [congruence|].
  intros t a. destruct (Hm1 t a) as [m1 H1], (Hm2 t a) as [m2 H2].
  exists (m1 ++ m2). by rewrite H2, H1, app_assoc.
Qed.

Lemma appended_bound w w' : appended w w' → cursor_le_length w → cursor_le_length w'.
Proof.
  intros [Hc Hm] Hb t a. unfold cursor_of. rewrite Hc.
  destruct (Hm t a) as [more ->]. rewrite length_app.
  specialize (Hb t a). unfold cursor_of in Hb. lia.
Qed.

Lemma appended_insert w w' team agent msg :
  configs w' = configs w → cursors w' = cursors w →
  inboxes w' = <[(team, agent) := messages_of w team agent ++ [msg]]> (inboxes w) →
  appended w w'.
Proof.
  intros _ Hc Hi. split; [done|]. intros t a. unfold messages_of at 1. rewrite Hi.
  destruct (decide ((team, agent) = (t, a))) as [[= <- <-]|Hne].
  - rewrite lookup_insert_eq. by eexists.
  - rewrite lookup_insert_ne by done. exists []. by rewrite app_nil_r.
Qed.

Lemma appended_same w w' :
  inboxes w' = inboxes w → cursors w' = cursors w → appended w w'.
Proof.
  intros Hi Hc. split; [done|]. intros t a. exists [].
  unfold messages_of. by rewrite Hi, app_nil_r.
Qed.

Section CursorBound.

Variable uuid8 : nat → string.
Variable utc_now : nat → string.
Variable json_dumps : list Message → string.
Variable json_dumps_assignment : string → string → string → string.

Lemma send_message_appended from_id to_id text type w :
  appended w (send_message uuid8 utc_now from_id to_id text type w).2.
Proof.
  destruct (split_first "@" from_id) as [[fn ft]|] eqn:Ef;
    [destruct (split_first "@" to_id) as [[tn tt]|] eqn:Et|].
  - destruct (decide (ft = tt)) as [->|Hne].
    + rewrite (send_message_same _ _ _ _ _ _ _ _ _ _ Ef Et). cbv zeta.
      by eapply appended_insert.
    + rewrite (send_message_cross _ _ _ _ _ _ _ _ _ _ _ Ef Et Hne). apply appended_refl.
  - unfold send_message, _parse_identity. run_M. rewrite Ef, Et. apply appended_refl.
  - unfold send_message, _parse_identity. run_M. rewrite Ef. apply appended_refl.
Qed.

Lemma broadcast_appended from_id text type w :
  appended w (broadcast uuid8 utc_now from_id text type w).2.
Proof.
  unfold broadcast, _parse_identity, team_info. run_M.
  destruct (split_first "@" from_id) as [[from_name team]|]; [|apply appended_refl].
  simpl. destruct (configs w !! team) as [config|]; [|apply appended_refl].
  destruct (broadcast_loop uuid8 utc_now from_name team text type (cfg_members config) w)
    as (msgs & w' & Hrun & _ & _ & Hmsgs & Hother & Hc & _).
  simpl. rewrite Hrun. split; [done|]. intros t a.
  destruct (decide (t = team)) as [->|Hne].
  - rewrite Hmsgs. by eexists.
  - exists []. unfold messages_of. rewrite Hother by (by left). by rewrite app_nil_r.
Qed.

Lemma create_task_appended team subject description assigned_to assigned_by w :
  appended w (create_task uuid8 utc_now json_dumps_assignment
                          team subject description assigned_to assigned_by w).2.
Proof.
  rewrite create_task_run. cbv zeta.
  set (w1 := task_written _ _ _ _ _ _ _).
  assert (H1 : appended w w1) by (by apply appended_same).
  destruct (truthy assigned_to && truthy assigned_by); [|done].
  unfold notify.
  pose proof (send_message_appended (assigned_by +:+ "@" +:+ team)
                (assigned_to +:+ "@" +:+ team)
                (json_dumps_assignment (str_nat (length (task_files team w) + 1))
                   subject description)
                (Some "task_assignment") w1) as H2.
  destruct (send_message _ _ _ _ _ _ _) as [[msg|e] w2];
    simpl in *; exact (appended_trans _ _ _ H1 H2).
Qed.

Lemma claim_task_appended team task_id agent w :
  appended w (claim_task utc_now team task_id agent w).2.
Proof.
  unfold claim_task. run_M.
  destruct (tasks w !! (team, task_id)) as [task|]; [|apply appended_refl].
  destruct (bool_decide _); [apply appended_refl | by apply appended_same].
Qed.

Lemma complete_task_appended team task_id agent result w :
  appended w (complete_task utc_now team task_id agent result w).2.
Proof.
  unfold complete_task. run_M.
  destruct (tasks w !! (team, task_id)) as [task|]; [|apply appended_refl].
  destruct (bool_decide _); [apply appended_refl | by apply appended_same].
Qed.

(** Every call but [create_team], [add_member], [remove_member] and
    [poll_inbox] leaves the cursors alone and only ever adds messages at
    the end of inboxes. *)
Lemma exec_appended c w :
  resets_inbox c = false → is_RemoveMember c = false → is_Poll c = false →
  appended w (exec uuid8 utc_now json_dumps json_dumps_assignment c w).
Proof.
  intros H1 H2 H3. destruct c; try discriminate; simpl.
  - apply send_message_appended.
  - apply broadcast_appended.
  - rewrite read_inbox_world. apply appended_refl.
  - apply create_task_appended.
  - apply claim_task_appended.
  - apply complete_task_appended.
  - apply appended_refl.
Qed.

(** [poll_inbox] writes no inbox, and the only cursor it writes is set to
    the length of its inbox. *)
Lemma poll_inbox_cursor ident format w team agent :
  messages_of (poll_inbox json_dumps ident format w).2 team agent = messages_of w team agent ∧
  (cursor_of (poll_inbox json_dumps ident format w).2 team agent = cursor_of w team agent ∨
   cursor_of (poll_inbox json_dumps ident format w).2 team agent
   = length (messages_of w team agent)).
Proof.
  split; [unfold messages_of; by rewrite poll_inbox_keeps_log|].
  destruct (split_first "@" ident) as [[name t]|] eqn:E.
  - rewrite (poll_inbox_run _ _ _ _ _ _ E). simpl.
    destruct (inboxes w !! (t, name)) as [ms|] eqn:Ei; [|by left].
    unfold cursor_of, messages_of. simpl.
    destruct (decide ((t, name) = (team, agent))) as [[= <- <-]|Hne].
    + right. by rewrite lookup_insert_eq, Ei.
    + left. by rewrite lookup_insert_ne.
  - left. unfold poll_inbox, _parse_identity. run_M. by rewrite E.
Qed.

(** [remove_member] deletes the inbox and the cursor of one mailbox
    together and touches no other. *)
Lemma remove_member_mailbox team name w t a :
  (messages_of (remove_member team name w).2 t a = messages_of w t a ∧
   cursor_of (remove_member team name w).2 t a = cursor_of w t a) ∨
  (messages_of (remove_member team name w).2 t a = [] ∧
   cursor_of (remove_member team name w).2 t a = 0).
Proof.
  unfold remove_member, team_info. run_M.
  destruct (configs w !! team) as [config|]; simpl; [|by left].
  unfold messages_of, cursor_of. simpl.
  destruct (decide ((team, name) = (t, a))) as [[= <- <-]|Hne].
  - right. by rewrite !lookup_delete_eq.
  - left. by rewrite !lookup_delete_ne.
Qed.

(** The bound [cursor <= length] survives every call other than
    [create_team] and [add_member]. *)
Lemma cursor_bound_preserved c w :
  resets_inbox c = false →
  cursor_le_length w →
  cursor_le_length (exec uuid8 utc_now json_dumps json_dumps_assignment c w).
Proof.
  intros Hr Hb.
  destruct (is_RemoveMember c) eqn:Hrm; [|destruct (is_Poll c) eqn:Hp].
  - destruct c; try discriminate. intros t a. simpl.
    destruct (remove_member_mailbox team name w t a) as [[-> ->]|[-> ->]];
      [apply Hb | simpl; lia].
  - destruct c; try discriminate. intros t a. simpl.
    destruct (poll_inbox_cursor who format w t a) as [-> [->| ->]]; [apply Hb | lia].
  - eapply appended_bound; [|done]. by apply exec_appended.
Qed.

(** In a world that keeps the bound, no call other than [create_team] and
    [add_member] replaces the content of a cursor file by a smaller number
    ([remove_member] deletes the file with the inbox), and none but these
    and [remove_member] lowers the cursor that [poll_inbox] would read. *)
Lemma cursor_monotone c w team agent :
  resets_inbox c = false →
  cursor_le_length w →
  let w' := exec uuid8 utc_now json_dumps json_dumps_assignment c w in
  (∀ n n', cursors w !! (team, agent) = Some n → cursors w' !! (team, agent) = Some n' →
           n ≤ n') ∧
  (is_RemoveMember c = false → cursor_of w team agent ≤ cursor_of w' team agent).
Proof.
  intros Hr Hb w'.
  assert (Hmono : is_RemoveMember c = false →
                  cursor_of w team agent ≤ cursor_of w' team agent).
  { intros Hrm. unfold w'. destruct (is_Poll c) eqn:Hp.
    - destruct c; try discriminate. simpl.
      destruct (poll_inbox_cursor who format w team agent) as [_ [->| ->]];
        [lia | apply Hb].
    - destruct (exec_appended c w Hr Hrm Hp) as [Hc _]. unfold cursor_of. by rewrite Hc. }
  split; [|done]. intros n n' Hn Hn'.
  destruct (is_RemoveMember c) eqn:Hrm.
  - destruct c; try discriminate. unfold w' in Hn'. simpl in Hn'.
    unfold remove_member, team_info in Hn'. run_M.
    destruct (configs w !! team0) as [config|]; simpl in Hn'; [|by simplify_eq].
    destruct (decide ((team0, name) = (team, agent))) as [[= <- <-]|Hne].
    + by rewrite lookup_delete_eq in Hn'.
    + rewrite lookup_delete_ne in Hn' by done. by simplify_eq.
  - specialize (Hmono eq_refl). unfold cursor_of in Hmono.
    by rewrite Hn, Hn' in Hmono.
Qed.

Lemma cursor_bound_exec_all cs w :
  Forall (λ c, resets_inbox c = false) cs →
  cursor_le_length w →
  cursor_le_length (exec_all uuid8 utc_now json_dumps json_dumps_assignment cs w).
Proof.
  intros Hcs. revert w. induction Hcs as [|c cs Hc _ IH]; intros w Hb; [done|].
  simpl. apply IH. by apply cursor_bound_preserved.
Qed.

End CursorBound.

(** * Further properties of the code *)

(** ** Identities *)

(** X1. [_parse_identity] succeeds exactly on the strings [name@team] whose
    [name] holds no ['@'], returning that [name] and [team] (so the team is
    everything after the first ['@']); it raises exactly when the string
    holds no ['@']; it never touches the world. *)
Theorem parse_identity_roundtrip ident w :
  (∀ name team,
     _parse_identity ident w = (Ok (name, team), w)
     ↔ ident = name +:+ "@" +:+ team ∧ ¬ contains "@" name) ∧
  (is_ok (_parse_identity ident w).1 = false ↔ ¬ contains "@" ident) ∧
  (_parse_identity ident w).2 = w.
Proof.
  unfold _parse_identity. split_and!.
  - intros name team. split.
    + intros H. apply (proj1 (split_first_Some "@" ident name team)).
      destruct (split_first "@" ident) as [[n t]|];
        unfold mret, M_ret, raise in H; by simplify_eq.
    + intros H. by rewrite (proj2 (split_first_Some "@" ident name team) H).
  - rewrite <- split_first_None.
    by destruct (split_first "@" ident) as [[n t]|].
  - by destruct (split_first "@" ident) as [[n t]|].
Qed.

(** ** Team management *)


Section Teams.

Variable utc_now : nat → string.


End Teams.





Lemma add_member_run team name config w :
  configs w !! team = Some config →
  add_member team name w
  = let c := if bool_decide (name ∈ cfg_members config) then config
             else mkConfig (cfg_name config) (cfg_members config ++ [name])
                           (cfg_created config) in
    (Ok c,
     {| configs := if bool_decide (name ∈ cfg_members config) then configs w
                   else <[team := c]> (configs w);
        inboxes := <[(team, name) := []]> (inboxes w);
        cursors := cursors w; tasks := tasks w; tick := tick w |}).
Proof.
  intros Hcfg. unfold add_member, team_info. run_M. rewrite Hcfg. simpl.
  by destruct (bool_decide (name ∈ cfg_members config)).
Qed.

Lemma remove_member_run team name config w :
  configs w !! team = Some config →
  remove_member team name w
  = let c := mkConfig (cfg_name config) (filter (λ m, m ≠ name) (cfg_members config))
                      (cfg_created config) in
    (Ok c,
     {| configs := <[team := c]> (configs w);
        inboxes := delete (team, name) (inboxes w);
        cursors := delete (team, name) (cursors w);
        tasks := tasks w; tick := tick w |}).
Proof. intros Hcfg. unfold remove_member, team_info. run_M. by rewrite Hcfg. Qed.



Section CleanMailbox.

Variable json_dumps : list Message → string.


End CleanMailbox.



(** ** Deleting and listing teams *)

Lemma ascii_compare_refl x : Ascii.compare x x = Eq.
Proof. unfold Ascii.compare. apply N.compare_refl. Qed.





Lemma rmtree_lookup {A} (team : string) (m : gmap (string * string) A) (t a : string) :
  rmtree team m !! (t, a) = if bool_decide (t = team) then None else m !! (t, a).
Proof.
  unfold rmtree. case_bool_decide as Ht.
  - apply map_lookup_filter_None_2. right. intros x _ Hp. by apply Hp.
  - destruct (m !! (t, a)) as [x|] eqn:E.
    + by apply map_lookup_filter_Some_2.
    + apply map_lookup_filter_None_2. by left.
Qed.

Lemma elem_of_keys_team {A} (m : gmap (string * string) A) (team : string) :
  team ∈ (map_to_list m).*1.*1 ↔ ∃ a, is_Some (m !! (team, a)).
Proof.
  rewrite list_elem_of_fmap. split.
  - intros ([t a] & -> & Hk). apply list_elem_of_fmap in Hk as ([k x] & Hkx & Hin).
    simpl in Hkx. subst k. apply elem_of_map_to_list in Hin. exists a. simpl. eauto.
  - intros (a & x & Hx). exists (team, a). split; [done|].
    apply list_elem_of_fmap. exists (team, a, x). split; [done|].
    by apply elem_of_map_to_list.
Qed.

Lemma elem_of_keys {A} (m : gmap string A) (team : string) :
  team ∈ (map_to_list m).*1 ↔ is_Some (m !! team).
Proof.
  rewrite list_elem_of_fmap. split.
  - intros ([k x] & -> & Hin). apply elem_of_map_to_list in Hin. simpl. eauto.
  - intros (x & Hx). exists (team, x). split; [done|]. by apply elem_of_map_to_list.
Qed.

(** A team directory is listed exactly when it holds some file. *)
Lemma elem_of_team_dirs team w :
  team ∈ team_dirs w ↔
  is_Some (configs w !! team) ∨ (∃ a, is_Some (inboxes w !! (team, a))) ∨
  (∃ a, is_Some (cursors w !! (team, a))) ∨ (∃ id, is_Some (tasks w !! (team, id))).
Proof.
  unfold team_dirs. rewrite elem_of_remove_dups, !elem_of_app.
  by rewrite elem_of_keys, !elem_of_keys_team.
Qed.

(** X7. [delete_team] never raises.  It returns [True] exactly when the
    team directory holds a file (a config, an inbox, a cursor or a task),
    and [False] without touching anything otherwise.  Afterwards the team
    has no config, no inbox, no cursor and no task, every other team's
    files are as before, [team_info] on the team raises and a second
    [delete_team] returns [False].  This is for a team that is a directory
    name, in a world keyed by such names: there [TEAMS_ROOT / team] is the
    directory of that team alone. *)
Theorem delete_team_spec team w :
  dir_name team = true → names_ok w →
  let r := delete_team team w in
  ∃ b,
    r.1 = Ok b ∧
    (b = true ↔
       is_Some (configs w !! team) ∨ (∃ a, is_Some (inboxes w !! (team, a))) ∨
       (∃ a, is_Some (cursors w !! (team, a))) ∨ (∃ id, is_Some (tasks w !! (team, id)))) ∧
    (b = false → r.2 = w) ∧
    configs r.2 !! team = None ∧
    (∀ a, inboxes r.2 !! (team, a) = None ∧ cursors r.2 !! (team, a) = None ∧
          tasks r.2 !! (team, a) = None) ∧
    (∀ t, t ≠ team →
          configs r.2 !! t = configs w !! t ∧
          ∀ a, inboxes r.2 !! (t, a) = inboxes w !! (t, a) ∧
               cursors r.2 !! (t, a) = cursors w !! (t, a) ∧
               tasks r.2 !! (t, a) = tasks w !! (t, a)) ∧
    (delete_team team r.2).1 = Ok false ∧
    (team_info team r.2).1 = Err (FileNotFoundError (_config_path team)).
Proof.
  intros _ _ r.
  assert (Hgone : ∀ w', configs w' !! team = None →
            (∀ a, inboxes w' !! (team, a) = None ∧ cursors w' !! (team, a) = None ∧
                  tasks w' !! (team, a) = None) →
            (delete_team team w').1 = Ok false ∧
            (team_info team w').1 = Err (FileNotFoundError (_config_path team))).
  { intros w' Hc Hf. unfold delete_team, team_info. run_M. rewrite Hc.
    rewrite bool_decide_eq_false_2; [done|].
    rewrite elem_of_team_dirs, Hc. intros [H|[[a H]|[[a H]|[a H]]]].
    - by destruct H.
    - destruct (Hf a) as (E & _ & _). rewrite E in H. by destruct H.
    - destruct (Hf a) as (_ & E & _). rewrite E in H. by destruct H.
    - destruct (Hf a) as (_ & _ & E). rewrite E in H. by destruct H. }
  unfold r, delete_team. run_M.
  destruct (decide (team ∈ team_dirs w)) as [Hin|Hnin].
  - rewrite (bool_decide_eq_true_2 _ Hin). simpl. exists true.
    assert (Hc : delete team (configs w) !! team = None) by apply lookup_delete_eq.
    assert (Hf : ∀ a, rmtree team (inboxes w) !! (team, a) = None ∧
                      rmtree team (cursors w) !! (team, a) = None ∧
                      rmtree team (tasks w) !! (team, a) = None).
    { intros a. by rewrite !rmtree_lookup, bool_decide_eq_true_2. }
    split_and!; try done.
    + split; [intros _; by apply elem_of_team_dirs | done].
    + intros t Ht. split; [by apply lookup_delete_ne|].
      intros a. by rewrite !rmtree_lookup, bool_decide_eq_false_2.
    + by apply (Hgone (mkWorld _ _ _ _ _)).
    + by apply (Hgone (mkWorld _ _ _ _ _)).
  - rewrite (bool_decide_eq_false_2 _ Hnin). simpl. exists false.
    rewrite elem_of_team_dirs in Hnin.
    assert (Hc : configs w !! team = None).
    { destruct (configs w !! team) eqn:E; [|done]. exfalso. apply Hnin. left. eauto. }
    assert (Hf : ∀ a, inboxes w !! (team, a) = None ∧ cursors w !! (team, a) = None ∧
                      tasks w !! (team, a) = None).
    { intros a. split_and!.
      - destruct (inboxes w !! (team, a)) eqn:E; [|done]. exfalso. apply Hnin.
        right; left. exists a. rewrite E. eauto.
      - destruct (cursors w !! (team, a)) eqn:E; [|done]. exfalso. apply Hnin.
        right; right; left. exists a. rewrite E. eauto.
      - destruct (tasks w !! (team, a)) eqn:E; [|done]. exfalso. apply Hnin.
        right; right; right. exists a. rewrite E. eauto. }
    split_and!; try done.
    + by apply Hgone.
    + by apply Hgone.
Qed.

(** [delete_team_spec] at work on the team [lead], [w1], [w2]: the team is
    deleted, and after that neither read nor deleted again; a team that was
    never made is not deleted. *)
Lemma delete_team_spec_witness :
  (delete_team "bc" ex_bc_world).1 = Ok true ∧
  (team_info "bc" (delete_team "bc" ex_bc_world).2).1
  = Err (FileNotFoundError (_config_path "bc")) ∧
  (delete_team "bc" (delete_team "bc" ex_bc_world).2).1 = Ok false ∧
  delete_team "zz" ex_bc_world = (Ok false, ex_bc_world).
Proof.
  assert (Hok : names_ok ex_bc_world)
    by (apply (bool_decide_unpack _); vm_compute; exact I).
  destruct (delete_team_spec "bc" ex_bc_world eq_refl Hok)
    as (b & Hb & Htrue & _ & _ & _ & _ & Hagain & Hinfo).
  split_and!; [|exact Hinfo|exact Hagain|].
  - rewrite Hb. f_equal. apply Htrue. left. vm_compute. eauto.
  - destruct (delete_team_spec "zz" ex_bc_world eq_refl Hok)
      as (b' & Hb' & Htrue' & Hfalse & _).
    destruct b'.
    + exfalso. destruct (proj1 Htrue' eq_refl) as [H|[[a H]|[[a H]|[a H]]]].
      * revert H. vm_compute. by intros [? ?].
      * assert (Hd : "zz" ∈ team_dirs ex_bc_world)
          by (apply elem_of_team_dirs; right; left; eauto).
        revert Hd. apply (bool_decide_unpack _). vm_compute. exact I.
      * assert (Hd : "zz" ∈ team_dirs ex_bc_world)
          by (apply elem_of_team_dirs; right; right; left; eauto).
        revert Hd. apply (bool_decide_unpack _). vm_compute. exact I.
      * assert (Hd : "zz" ∈ team_dirs ex_bc_world)
          by (apply elem_of_team_dirs; right; right; right; eauto).
        revert Hd. apply (bool_decide_unpack _). vm_compute. exact I.
    + rewrite (surjective_pairing (delete_team "zz" ex_bc_world)).
      by rewrite Hb', (Hfalse eq_refl).
Defined.




(** ** Every message is polled once *)


Section Delivery.

Variable uuid8 : nat → string.
Variable utc_now : nat → string.
Variable json_dumps : list Message → string.
Variable json_dumps_assignment : string → string → string → string.





End Delivery.


(** ** Task files *)

Lemma str_nat_inj n m : str_nat n = str_nat m → n = m.
Proof.
  unfold str_nat. intros H. apply Unsigned.to_uint_inj.
  apply (f_equal NilEmpty.uint_of_string) in H.
  rewrite !NilEmpty.usu in H. by injection H.
Qed.

Lemma NoDup_omap_inj {A B} (f : A → option B) (l : list A) :
  (∀ x y z, f x = Some z → f y = Some z → x = y) → NoDup l → NoDup (omap f l).
Proof.
  intros Hinj. induction 1 as [|x l Hx Hnd IH]; simpl; [constructor|].
  destruct (f x) as [z|] eqn:E; [|done]. constructor; [|done].
  intros Hz. apply list_elem_of_omap in Hz as (y & Hy & Hfy).
  by rewrite (Hinj x y z E Hfy) in Hx.
Qed.

Lemma elem_of_task_files team w id t :
  (id, t) ∈ task_files team w ↔ tasks w !! (team, id) = Some t.
Proof.
  unfold task_files. rewrite list_elem_of_omap. split.
  - intros ([[tm i] x] & Hin & Hf). simpl in Hf. case_bool_decide; [|done].
    simplify_eq. by apply elem_of_map_to_list in Hin.
  - intros H. exists (team, id, t). split; [by apply elem_of_map_to_list|].
    simpl. by rewrite bool_decide_eq_true_2.
Qed.

Lemma NoDup_task_files team w : NoDup (task_files team w).
Proof.
  unfold task_files. apply NoDup_omap_inj; [|apply NoDup_map_to_list].
  intros [[t1 i1] x1] [[t2 i2] x2] z H1 H2. simpl in *.
  repeat case_bool_decide; by simplify_eq.
Qed.

Lemma length_task_files_same team w w' :
  (∀ id, tasks w' !! (team, id) = tasks w !! (team, id)) →
  task_files team w' ≡ₚ task_files team w.
Proof.
  intros H. apply NoDup_Permutation; [apply NoDup_task_files..|].
  intros [id t]. by rewrite !elem_of_task_files, H.
Qed.

Lemma task_files_insert_new team id t w w' :
  tasks w' = <[(team, id) := t]> (tasks w) →
  tasks w !! (team, id) = None →
  task_files team w' ≡ₚ (id, t) :: task_files team w.
Proof.
  intros Hw Hno. apply NoDup_Permutation; [apply NoDup_task_files| |].
  - constructor; [|apply NoDup_task_files]. rewrite elem_of_task_files. congruence.
  - intros [i x]. rewrite elem_of_cons, !elem_of_task_files, Hw.
    destruct (decide (i = id)) as [->|Hne].
    + rewrite lookup_insert_eq. split; [intros [= ->]; by left|].
      intros [[= ->]|H]; [done | congruence].
    + rewrite lookup_insert_ne by congruence. split; [by right|].
      intros [[= -> _]|H]; done.
Qed.

Lemma task_files_overwrite team id t t0 w w' :
  tasks w' = <[(team, id) := t]> (tasks w) →
  tasks w !! (team, id) = Some t0 →
  length (task_files team w') = length (task_files team w).
Proof.
  intros Hw Hsome.
  set (w0 := set_tasks (delete (team, id)) w).
  assert (H0 : tasks w0 !! (team, id) = None) by apply lookup_delete_eq.
  rewrite (task_files_insert_new team id t w0 w'), (task_files_insert_new team id t0 w0 w);
    try done.
  - simpl. by rewrite insert_delete_id.
  - rewrite Hw. simpl. by rewrite insert_delete_eq.
Qed.

Lemma task_files_other_team team tm w w' :
  tm ≠ team →
  (∀ t id, t ≠ tm → tasks w' !! (t, id) = tasks w !! (t, id)) →
  length (task_files team w') = length (task_files team w).
Proof.
  intros Hne H. rewrite (length_task_files_same team w w'); [done|].
  intros id. apply H. congruence.
Qed.

Lemma task_files_none team w :
  (∀ id, tasks w !! (team, id) = None) → task_files team w = [].
Proof.
  intros H. destruct (task_files team w) as [|[id t] l] eqn:E; [done|].
  assert (Hin : (id, t) ∈ task_files team w) by (rewrite E; by left).
  apply elem_of_task_files in Hin. by rewrite H in Hin.
Qed.

(** ** What each function writes *)

Section Frames.

Variable uuid8 : nat → string.
Variable utc_now : nat → string.
Variable json_dumps : list Message → string.
Variable json_dumps_assignment : string → string → string → string.

Lemma send_message_frame from_id to_id text type w :
  tasks (send_message uuid8 utc_now from_id to_id text type w).2 = tasks w ∧
  configs (send_message uuid8 utc_now from_id to_id text type w).2 = configs w.
Proof.
  unfold send_message, _parse_identity. run_M.
  destruct (split_first "@" from_id) as [[fn ft]|]; [|done]. simpl.
  destruct (split_first "@" to_id) as [[tn tt]|]; [|done]. simpl.
  by destruct (bool_decide _).
Qed.

Lemma broadcast_frame from_id text type w :
  tasks (broadcast uuid8 utc_now from_id text type w).2 = tasks w ∧
  configs (broadcast uuid8 utc_now from_id text type w).2 = configs w.
Proof.
  unfold broadcast, _parse_identity, team_info. run_M.
  destruct (split_first "@" from_id) as [[from_name team]|]; [|done]. simpl.
  destruct (configs w !! team) as [config|]; [|done].
  destruct (broadcast_loop uuid8 utc_now from_name team text type (cfg_members config) w)
    as (msgs & w' & Hrun & _ & _ & _ & _ & _ & Hc & Ht).
  simpl. by rewrite Hrun.
Qed.

Lemma poll_inbox_frame who format w :
  tasks (poll_inbox json_dumps who format w).2 = tasks w ∧
  configs (poll_inbox json_dumps who format w).2 = configs w.
Proof.
  unfold poll_inbox, _parse_identity. run_M.
  destruct (split_first "@" who) as [[name team]|]; [|done]. simpl.
  by destruct (inboxes w !! (team, name)).
Qed.

Lemma team_calls_tasks team name members w :
  tasks (create_team utc_now team members w).2 = tasks w ∧
  tasks (add_member team name w).2 = tasks w ∧
  tasks (remove_member team name w).2 = tasks w.
Proof.
  unfold create_team, add_member, remove_member, team_info. run_M.
  destruct (configs w !! team) as [config|]; simpl; [|done].
  by destruct (bool_decide _).
Qed.

Lemma create_task_tasks team subject description assigned_to assigned_by w :
  tasks (create_task uuid8 utc_now json_dumps_assignment
                     team subject description assigned_to assigned_by w).2
  = <[(team, str_nat (length (task_files team w) + 1))
      := new_task utc_now team subject description assigned_to assigned_by w]> (tasks w) ∧
  configs (create_task uuid8 utc_now json_dumps_assignment
                       team subject description assigned_to assigned_by w).2
  = configs w.
Proof.
  rewrite create_task_run. cbv zeta.
  destruct (truthy assigned_to && truthy assigned_by); [|done].
  unfold notify.
  pose proof (send_message_frame (assigned_by +:+ "@" +:+ team)
                (assigned_to +:+ "@" +:+ team)
                (json_dumps_assignment (str_nat (length (task_files team w) + 1))
                   subject description)
                (Some "task_assignment")
                (task_written utc_now team subject description assigned_to assigned_by w))
    as [Ht Hc].
  destruct (send_message _ _ _ _ _ _ _) as [[msg|e] w2]; simpl in *; by rewrite Ht, Hc.
Qed.

(** What [claim_task] does to the task files: nothing, or one pending record
    replaced by its claimed version. *)
Lemma claim_task_tasks team task_id agent w :
  tasks (claim_task utc_now team task_id agent w).2 = tasks w ∨
  ∃ t t',
    tasks w !! (team, task_id) = Some t ∧ t_status t = "pending" ∧
    tasks (claim_task utc_now team task_id agent w).2 = <[(team, task_id) := t']> (tasks w) ∧
    t_status t' = "in_progress" ∧
    is_Some (t_claimed_at t') ∧ is_Some (t_assigned_to t') ∧
    t_completed_at t' = t_completed_at t ∧ t_result t' = t_result t ∧
    t_id t' = t_id t ∧ t_subject t' = t_subject t ∧
    t_description t' = t_description t ∧ t_created t' = t_created t.
Proof.
  unfold claim_task. run_M.
  destruct (tasks w !! (team, task_id)) as [t|] eqn:E; [|by left].
  case_bool_decide as Hs; [by left|]. right.
  exists t. eexists. split; [done|]. split; [done|].
  simpl. split_and!; eauto.
Qed.

Lemma complete_task_tasks team task_id agent result w :
  tasks (complete_task utc_now team task_id agent result w).2 = tasks w ∨
  ∃ t t',
    tasks w !! (team, task_id) = Some t ∧ t_status t = "in_progress" ∧
    tasks (complete_task utc_now team task_id agent result w).2
    = <[(team, task_id) := t']> (tasks w) ∧
    t_status t' = "completed" ∧
    is_Some (t_completed_at t') ∧ is_Some (t_result t') ∧
    t_claimed_at t' = t_claimed_at t ∧ t_assigned_to t' = t_assigned_to t ∧
    t_id t' = t_id t ∧ t_subject t' = t_subject t ∧
    t_description t' = t_description t ∧ t_created t' = t_created t.
Proof.
  unfold complete_task. run_M.
  destruct (tasks w !! (team, task_id)) as [t|] eqn:E; [|by left].
  case_bool_decide as Hs; [by left|]. right.
  exists t. eexists. split; [done|]. split; [done|].
  simpl. split_and!; eauto.
Qed.

Lemma delete_team_tasks team w :
  tasks (delete_team team w).2 = tasks w ∨
  tasks (delete_team team w).2 = rmtree team (tasks w).
Proof. unfold delete_team. run_M. destruct (bool_decide _); [by right | by left]. Qed.

End Frames.

(** ** The numbering and the shape of task records *)

Lemma task_files_ext team w w' : tasks w' = tasks w → task_files team w' = task_files team w.
Proof. unfold task_files. by intros ->. Qed.

Lemma tasks_ok_same w w' : tasks w' = tasks w → tasks_ok w → tasks_ok w'.
Proof.
  intros H [Hn Hr]. split.
  - intros team id. by rewrite H, (task_files_ext team w w' H).
  - intros team id t. rewrite H. apply Hr.
Qed.

Lemma tasks_ok_fresh team w :
  tasks_ok w → tasks w !! (team, str_nat (length (task_files team w) + 1)) = None.
Proof.
  intros [Hn _]. destruct (tasks w !! _) as [t|] eqn:E; [|done].
  destruct (proj1 (Hn team (str_nat (length (task_files team w) + 1))))
    as (i & Hi & Heq); [by eauto|].
  apply str_nat_inj in Heq. lia.
Qed.

Lemma tasks_ok_create team task w w' :
  tasks_ok w →
  tasks w' = <[(team, str_nat (length (task_files team w) + 1)) := task]> (tasks w) →
  t_id task = str_nat (length (task_files team w) + 1) →
  task_wf task →
  tasks_ok w'.
Proof.
  intros Hok Hw Hid Hwf. pose proof (tasks_ok_fresh team w Hok) as Hfresh.
  destruct Hok as [Hn Hr]. split.
  - intros tm id. rewrite Hw. destruct (decide (tm = team)) as [->|Hne].
    + assert (Hlen : length (task_files team w') = S (length (task_files team w)))
        by (by rewrite (task_files_insert_new team _ task w w' Hw Hfresh)).
      rewrite Hlen.
      destruct (decide (id = str_nat (length (task_files team w) + 1))) as [->|Hid'].
      * rewrite lookup_insert_eq. split; [|by eauto]. intros _.
        exists (length (task_files team w) + 1). split; [lia | done].
      * rewrite lookup_insert_ne by congruence. rewrite Hn. split.
        -- intros (i & Hi & ->). exists i. split; [lia | done].
        -- intros (i & Hi & ->). exists i. split; [|done].
           destruct (decide (i = length (task_files team w) + 1)) as [->|?]; [done | lia].
    + rewrite lookup_insert_ne by congruence.
      rewrite (task_files_other_team tm team w w'); [apply Hn | done |].
      intros t i Ht. rewrite Hw. apply lookup_insert_ne. congruence.
  - intros tm id t. rewrite Hw.
    destruct (decide ((team, str_nat (length (task_files team w) + 1)) = (tm, id)))
      as [[= <- <-]|Hne].
    + rewrite lookup_insert_eq. by intros [= <-].
    + rewrite lookup_insert_ne by done. apply Hr.
Qed.

Lemma tasks_ok_update team id t t' w w' :
  tasks_ok w →
  tasks w !! (team, id) = Some t →
  tasks w' = <[(team, id) := t']> (tasks w) →
  t_id t' = t_id t → task_wf t' →
  tasks_ok w'.
Proof.
  intros [Hn Hr] Hsome Hw Hid Hwf. split.
  - intros tm i. rewrite Hw.
    assert (Hlen : length (task_files tm w') = length (task_files tm w)).
    { destruct (decide (tm = team)) as [->|Hne].
      - by apply (task_files_overwrite team id t' t).
      - apply (task_files_other_team tm team); [done|].
        intros x j Hx. rewrite Hw. apply lookup_insert_ne. congruence. }
    rewrite Hlen, <- Hn.
    destruct (decide ((team, id) = (tm, i))) as [[= <- <-]|Hne].
    + rewrite lookup_insert_eq, Hsome. split; eauto.
    + by rewrite lookup_insert_ne.
  - intros tm i x. rewrite Hw.
    destruct (decide ((team, id) = (tm, i))) as [[= <- <-]|Hne].
    + rewrite lookup_insert_eq. intros [= <-]. split; [|done].
      rewrite Hid. by apply (Hr team id t).
    + rewrite lookup_insert_ne by done. apply Hr.
Qed.

Lemma tasks_ok_rmtree team w w' :
  tasks_ok w → tasks w' = rmtree team (tasks w) → tasks_ok w'.
Proof.
  intros [Hn Hr] Hw. split.
  - intros tm id. rewrite Hw, rmtree_lookup. case_bool_decide as Ht.
    + subst tm.
      assert (Hnil : task_files team w' = []).
      { apply task_files_none. intros i.
        by rewrite Hw, rmtree_lookup, bool_decide_eq_true_2. }
      rewrite Hnil.
      split; [by intros [? ?] | intros (i & Hi & _); simpl in Hi; lia].
    + rewrite (task_files_other_team tm team w w'); [apply Hn | done |].
      intros t i Hti. by rewrite Hw, rmtree_lookup, bool_decide_eq_false_2.
  - intros tm id t. rewrite Hw, rmtree_lookup. case_bool_decide; [done | apply Hr].
Qed.

Lemma tasks_ok_empty : tasks_ok empty_world.
Proof.
  split.
  - intros team id. simpl. rewrite lookup_empty. unfold task_files. simpl.
    rewrite map_to_list_empty. simpl.
    split; [by intros [? ?] | intros (i & Hi & _); lia].
  - intros team id t. simpl. by rewrite lookup_empty.
Qed.

Lemma task_wf_pending t :
  t_status t = "pending" → t_claimed_at t = None → t_completed_at t = None →
  t_result t = None → task_wf t.
Proof. intros Hs ? ? ?. unfold task_wf. rewrite Hs. by simpl. Qed.

Lemma task_wf_inv t :
  task_wf t →
  (t_status t = "pending" ∧ t_claimed_at t = None ∧ t_completed_at t = None ∧
   t_result t = None) ∨
  (t_status t = "in_progress" ∧ is_Some (t_claimed_at t) ∧ is_Some (t_assigned_to t) ∧
   t_completed_at t = None ∧ t_result t = None) ∨
  (t_status t = "completed" ∧ is_Some (t_claimed_at t) ∧ is_Some (t_assigned_to t) ∧
   is_Some (t_completed_at t) ∧ is_Some (t_result t)).
Proof.
  unfold task_wf, status_rank. repeat case_bool_decide; try done.
  - intros (? & ? & ?). by left.
  - intros (? & ? & ? & ?). right; by left.
  - intros (? & ? & ? & ?). right; by right.
Qed.

Section TaskInvariant.

Variable uuid8 : nat → string.
Variable utc_now : nat → string.
Variable json_dumps : list Message → string.
Variable json_dumps_assignment : string → string → string → string.

Lemma exec_tasks_ok c w :
  tasks_ok w → tasks_ok (exec uuid8 utc_now json_dumps json_dumps_assignment c w).
Proof.
  intros Hok. destruct c; cbn [exec].
  - eapply tasks_ok_same; [|done]. apply team_calls_tasks; exact EmptyString.
  - eapply tasks_ok_same; [|done].
    apply (team_calls_tasks utc_now team name None).
  - eapply tasks_ok_same; [|done].
    apply (team_calls_tasks utc_now team name None).
  - eapply tasks_ok_same; [|done]. apply send_message_frame.
  - eapply tasks_ok_same; [|done]. apply broadcast_frame.
  - eapply tasks_ok_same; [|done]. apply poll_inbox_frame.
  - by rewrite read_inbox_world.
  - eapply tasks_ok_create; [done | apply create_task_tasks | done |].
    by apply task_wf_pending.
  - destruct (claim_task_tasks utc_now team task_id agent w)
      as [H|(t & t' & Hs & Hst & Hw & Hst' & Hc & Ha & Hca & Hr & Hid & _)].
    + by eapply tasks_ok_same.
    + eapply tasks_ok_update; [done | exact Hs | exact Hw | exact Hid |].
      destruct (task_wf_inv t) as [(_ & _ & Hca0 & Hr0)|[(Hx & _)|(Hx & _)]];
        [by apply (proj2 Hok team task_id)| |congruence|congruence].
      unfold task_wf. rewrite Hst'. simpl. split_and!; congruence.
  - destruct (complete_task_tasks utc_now team task_id agent result w)
      as [H|(t & t' & Hs & Hst & Hw & Hst' & Hc & Hr & Hcl & Ha & Hid & _)].
    + by eapply tasks_ok_same.
    + eapply tasks_ok_update; [done | exact Hs | exact Hw | exact Hid |].
      destruct (task_wf_inv t) as [(Hx & _)|[(_ & Hcl0 & Ha0 & _)|(Hx & _)]];
        [by apply (proj2 Hok team task_id)|congruence| |congruence].
      unfold task_wf. rewrite Hst'. simpl. split_and!; congruence.
  - done.
Qed.

Lemma run_tasks_ok o w :
  tasks_ok w → tasks_ok (run uuid8 utc_now json_dumps json_dumps_assignment o w).
Proof.
  intros Hok. destruct o; cbn [run].
  - by apply exec_tasks_ok.
  - destruct (delete_team_tasks team w) as [H|H].
    + by eapply tasks_ok_same.
    + by eapply tasks_ok_rmtree.
  - done.
  - unfold team_info. run_M. by destruct (configs w !! team).
Qed.

Lemma run_all_tasks_ok os w :
  tasks_ok w → tasks_ok (run_all uuid8 utc_now json_dumps json_dumps_assignment os w).
Proof.
  revert w. induction os as [|o os IH]; intros w Hok; [done|].
  simpl. apply IH. by apply run_tasks_ok.
Qed.


End TaskInvariant.


Section Forward.

Variable uuid8 : nat → string.
Variable utc_now : nat → string.
Variable json_dumps : list Message → string.
Variable json_dumps_assignment : string → string → string → string.

Lemma team_info_world team w : (team_info team w).2 = w.
Proof. unfold team_info. run_M. by destruct (configs w !! team). Qed.

Lemma task_wf_rank t : task_wf t → ∃ r, status_rank (t_status t) = Some r.
Proof. unfold task_wf. destruct (status_rank (t_status t)); [eauto | done]. Qed.

(** X11. From a world the functions can build, one more operation leaves
    an existing task record either deleted, which only [delete_team] of its
    team does, or in place with the same id, subject, description and
    creation time and a status that stayed or moved one step along
    pending, in_progress, completed.  A record whose status stayed is
    unchanged altogether; so a completed task is never modified, and no
    task goes back.  The operations, those that built the world and the one
    more, are on names that are path components ([op_ok]): team names that
    are directory names, agent names and task ids without ['/']. *)
Theorem task_status_forward o w team id t :
  reachable_named uuid8 utc_now json_dumps json_dumps_assignment w →
  op_ok o = true →
  tasks w !! (team, id) = Some t →
  let w' := run uuid8 utc_now json_dumps json_dumps_assignment o w in
  (tasks w' !! (team, id) = None ∧ o = DeleteTeam team) ∨
  ∃ t' r r',
    tasks w' !! (team, id) = Some t' ∧
    status_rank (t_status t) = Some r ∧ status_rank (t_status t') = Some r' ∧
    r ≤ r' ≤ r + 1 ∧
    t_id t' = t_id t ∧ t_subject t' = t_subject t ∧
    t_description t' = t_description t ∧ t_created t' = t_created t ∧
    (t_status t' = t_status t → t' = t) ∧
    (t_status t = "completed" → t' = t).
Proof.
  intros (os & _ & ->) _ Ht w'.
  pose proof (run_all_tasks_ok uuid8 utc_now json_dumps json_dumps_assignment
                os empty_world tasks_ok_empty) as Hok.
  set (w := run_all uuid8 utc_now json_dumps json_dumps_assignment os empty_world) in *.
  destruct (task_wf_rank t) as [r Hr]; [by apply (proj2 Hok team id)|].
  assert (Hkeep : tasks w' !! (team, id) = Some t →
            ∃ t' r r',
              tasks w' !! (team, id) = Some t' ∧
              status_rank (t_status t) = Some r ∧ status_rank (t_status t') = Some r' ∧
              r ≤ r' ≤ r + 1 ∧
              t_id t' = t_id t ∧ t_subject t' = t_subject t ∧
              t_description t' = t_description t ∧ t_created t' = t_created t ∧
              (t_status t' = t_status t → t' = t) ∧
              (t_status t = "completed" → t' = t)).
  { intros H. exists t, r, r. split_and!; try done; lia. }
  assert (Hsame : tasks w' = tasks w → tasks w' !! (team, id) = Some t)
    by (by intros ->).
  destruct o as [c| tm | |tm]; unfold w'; cbn [run].
  - destruct c; cbn [exec]; right.
    + apply Hkeep, Hsame. apply team_calls_tasks; exact EmptyString.
    + apply Hkeep, Hsame. apply (team_calls_tasks utc_now team0 name None).
    + apply Hkeep, Hsame. apply (team_calls_tasks utc_now team0 name None).
    + apply Hkeep, Hsame. apply send_message_frame.
    + apply Hkeep, Hsame. apply broadcast_frame.
    + apply Hkeep, Hsame. apply poll_inbox_frame.
    + apply Hkeep, Hsame. unfold w'. cbn [run exec]. by rewrite read_inbox_world.
    + apply Hkeep. unfold w'. cbn [run exec].
      rewrite (proj1 (create_task_tasks _ _ _ _ _ _ _ _ _)).
      rewrite lookup_insert_ne; [done|]. intros [= -> <-].
      by rewrite (tasks_ok_fresh team w Hok) in Ht.
    + destruct (claim_task_tasks utc_now team0 task_id agent w)
        as [H|(t0 & t' & Hs & Hst & Hw & Hst' & Hc & Ha & Hca & Hres & Hid & Hsu & Hd & Hcr)].
      * by apply Hkeep, Hsame.
      * destruct (decide ((team0, task_id) = (team, id))) as [[= -> ->]|Hne].
        -- assert (t0 = t) as -> by congruence.
           exists t', 0, 1. rewrite Hw, lookup_insert_eq, Hst', Hst.
           split_and!; try done; try lia; congruence.
        -- apply Hkeep. unfold w'. cbn [run exec]. rewrite Hw. by rewrite lookup_insert_ne.
    + destruct (complete_task_tasks utc_now team0 task_id agent result w)
        as [H|(t0 & t' & Hs & Hst & Hw & Hst' & Hc & Ha & Hca & Hres & Hid & Hsu & Hd & Hcr)].
      * by apply Hkeep, Hsame.
      * destruct (decide ((team0, task_id) = (team, id))) as [[= -> ->]|Hne].
        -- assert (t0 = t) as -> by congruence.
           exists t', 1, 2. rewrite Hw, lookup_insert_eq, Hst', Hst.
           split_and!; try done; try lia; congruence.
        -- apply Hkeep. unfold w'. cbn [run exec]. rewrite Hw. by rewrite lookup_insert_ne.
    + by apply Hkeep, Hsame.
  - destruct (delete_team_tasks tm w) as [H|H].
    + right. by apply Hkeep, Hsame.
    + destruct (decide (team = tm)) as [->|Hne].
      * left. split; [|done]. by rewrite H, rmtree_lookup, bool_decide_eq_true_2.
      * right. apply Hkeep. unfold w'. cbn [run].
        by rewrite H, rmtree_lookup, bool_decide_eq_false_2.
  - right. by apply Hkeep, Hsame.
  - right. apply Hkeep, Hsame. unfold w'. cbn [run]. by rewrite team_info_world.
Qed.

End Forward.

(** [task_status_forward] at work: task 1 of [ex_ops_world] is completed,
    and a later claim by [a] leaves its record as it is. *)
Lemma task_status_forward_witness :
  tasks (run ex_uuid8 ex_now ex_dumps ex_dumps_assignment
             (Public (ClaimTask "t" "1" "a")) ex_ops_world) !! ("t", "1")
  = Some ex_done.
Proof.
  destruct (task_status_forward ex_uuid8 ex_now ex_dumps ex_dumps_assignment
              (Public (ClaimTask "t" "1" "a")) ex_ops_world "t" "1" ex_done
              (ex_intro _ ex_task_ops (conj eq_refl eq_refl)) eq_refl
              ltac:(vm_compute; reflexivity))
    as [[_ Ho]|(t' & r & r' & Ht' & _ & _ & _ & _ & _ & _ & _ & _ & Hdone)].
  - discriminate Ho.
  - rewrite Ht'. f_equal. apply Hdone. reflexivity.
Defined.

(** ** What a failed call leaves behind *)

Section Failure.

Variable uuid8 : nat → string.
Variable utc_now : nat → string.
Variable json_dumps : list Message → string.
Variable json_dumps_assignment : string → string → string → string.



End Failure.


(** ** Listing tasks, as the code does it *)

Lemma list_filter_Permutation {A} (P : A → Prop) `{∀ x, Decision (P x)} (l k : list A) :
  l ≡ₚ k → filter P l ≡ₚ filter P k.
Proof. intros H0. by rewrite H0. Qed.


(** ** The empty poll *)

Section EmptyPoll.

Variable json_dumps : list Message → string.



End EmptyPoll.


(** ** Which files a call can write *)

Section WhoWritesWhat.

Variable uuid8 : nat → string.
Variable utc_now : nat → string.
Variable json_dumps : list Message → string.
Variable json_dumps_assignment : string → string → string → string.




End WhoWritesWhat.

(** ** A created task can be listed and claimed *)

Section CreateThenUse.

Variable uuid8 : nat → string.
Variable utc_now : nat → string.
Variable json_dumps_assignment : string → string → string → string.


End CreateThenUse.

(** ** Membership and broadcast *)


Lemma filter_eq_absent (a : string) (l : list string) :
  a ∉ l → filter (λ b, b = a) l = [].
Proof.
  intros Ha. apply filter_none. intros x Hx ->. done.
Qed.

Section MembersAndBroadcast.

Variable uuid8 : nat → string.
Variable utc_now : nat → string.


End MembersAndBroadcast.


(** ** Operations on path-component names keep the names so *)

Lemma file_stem_str_nat n : file_stem (str_nat n) = true.
Proof.
  unfold file_stem, str_nat, has_slash.
  induction (Nat.to_uint n) as [|d IH|d IH|d IH|d IH|d IH|d IH|d IH|d IH|d IH|d IH];
    simpl; done.
Qed.

Lemma identity_ok_parse ident name team :
  identity_ok ident = true → split_first "@" ident = Some (name, team) →
  dir_name team = true ∧ file_stem name = true.
Proof.
  unfold identity_ok. intros H E. rewrite E in H. by apply andb_prop in H.
Qed.

Lemma forallb_filter_keep {A} (f : A → bool) (P : A → Prop) `{∀ x, Decision (P x)}
    (l : list A) :
  forallb f l = true → forallb f (filter P l) = true.
Proof.
  induction l as [|x l IH]; [done|]. simpl. intros [Hx Hl]%andb_prop.
  destruct (decide (P x)).
  - rewrite filter_cons_True by done. simpl. by rewrite Hx, IH.
  - rewrite filter_cons_False by done. by apply IH.
Qed.

Lemma names_ok_inboxes w w' :
  names_ok w → configs w' = configs w → cursors w' = cursors w → tasks w' = tasks w →
  map_Forall (λ (k : string * string) _, dir_name k.1 = true ∧ file_stem k.2 = true)
             (inboxes w') →
  names_ok w'.
Proof.
  unfold names_ok. intros (Hc & _ & Hcu & Ht) E1 E2 E3 Hi. rewrite E1, E2, E3.
  by split_and!.
Qed.

Section NamesKept.

Variable uuid8 : nat → string.
Variable utc_now : nat → string.
Variable json_dumps : list Message → string.
Variable json_dumps_assignment : string → string → string → string.

Lemma send_message_names_ok from_id to_id text type w :
  identity_ok to_id = true → names_ok w →
  names_ok (send_message uuid8 utc_now from_id to_id text type w).2.
Proof.
  intros Hto Hok.
  destruct (split_first "@" from_id) as [[fn ft]|] eqn:Ef;
    [destruct (split_first "@" to_id) as [[tn tt]|] eqn:Et|].
  - destruct (decide (ft = tt)) as [->|Hne].
    + rewrite (send_message_same _ _ _ _ _ _ _ _ _ _ Ef Et). cbv zeta.
      apply (names_ok_inboxes w); try done. simpl.
      apply map_Forall_insert_2; [|apply Hok].
      by apply (identity_ok_parse to_id).
    + by rewrite (send_message_cross _ _ _ _ _ _ _ _ _ _ _ Ef Et Hne).
  - unfold send_message, _parse_identity. run_M. by rewrite Ef, Et.
  - unfold send_message, _parse_identity. run_M. by rewrite Ef.
Qed.

Lemma exec_names_ok c w :
  call_ok c = true → names_ok w →
  names_ok (exec uuid8 utc_now json_dumps json_dumps_assignment c w).
Proof.
  intros Hc Hok. pose proof Hok as (Hcfg & Hib & Hcu & Ht).
  destruct c; cbn [exec call_ok] in *.
  - apply andb_prop in Hc as [Hteam Hm]. unfold create_team. run_M. split_and!; try done.
    + by apply map_Forall_insert_2.
    + simpl. clear Hok. revert Hib. generalize (inboxes w).
      induction (default [] members) as [|m ms IH]; intros ib Hib; [done|].
      simpl in *. apply andb_prop in Hm as [Hm Hms]. apply IH; [done|].
      by apply map_Forall_insert_2.
  - apply andb_prop in Hc as [Hteam Hn].
    destruct (configs w !! team) as [config|] eqn:E.
    + rewrite (add_member_run _ _ _ _ E). cbv zeta. cbn [snd].
      destruct (Hcfg team config E) as [_ Hmem].
      split_and!; try done; cbn [configs inboxes].
      * case_bool_decide; [done|]. apply map_Forall_insert_2; [|done].
        split; [done|]. simpl. rewrite forallb_app. simpl. by rewrite Hmem, Hn.
      * by apply map_Forall_insert_2.
    + unfold add_member, team_info. run_M. by rewrite E.
  - apply andb_prop in Hc as [Hteam Hn].
    destruct (configs w !! team) as [config|] eqn:E.
    + rewrite (remove_member_run _ _ _ _ E). cbv zeta. cbn [snd].
      destruct (Hcfg team config E) as [_ Hmem].
      split_and!; try done; cbn [configs inboxes cursors].
      * apply map_Forall_insert_2; [|done]. split; [done|]. simpl.
        by apply forallb_filter_keep.
      * by apply map_Forall_delete.
      * by apply map_Forall_delete.
    + unfold remove_member, team_info. run_M. by rewrite E.
  - apply andb_prop in Hc as [_ Hto]. by apply send_message_names_ok.
  - unfold broadcast, _parse_identity, team_info. run_M.
    destruct (split_first "@" from_id) as [[from_name team]|] eqn:Ef; [|done]. simpl.
    destruct (configs w !! team) as [config|] eqn:E; [|done].
    destruct (broadcast_loop uuid8 utc_now from_name team text type (cfg_members config) w)
      as (msgs & w' & Hrun & _ & _ & _ & Hother & Hcur & Hcf & Hts).
    simpl. rewrite Hrun. simpl.
    apply (names_ok_inboxes w); try done.
    intros [t a] x Hx. simpl.
    destruct (decide (t = team ∧ a ∈ cfg_members config)) as [[-> Ha]|Hn].
    + destruct (identity_ok_parse _ _ _ Hc Ef) as [Hteam _]. split; [done|].
      destruct (Hcfg team config E) as [_ Hmem].
      rewrite forallb_forall in Hmem. apply Hmem. by apply list_elem_of_In.
    + rewrite Hother in Hx.
      * by apply (Hib (t, a) x).
      * destruct (decide (t = team)) as [->|?]; [|by left].
        right; left. intros ?. by apply Hn.
  - unfold poll_inbox, _parse_identity. run_M.
    destruct (split_first "@" who) as [[name team]|] eqn:E; [|done]. simpl.
    destruct (inboxes w !! (team, name)); [|done]. simpl.
    split_and!; try done. simpl.
    apply map_Forall_insert_2; [|done]. by apply (identity_ok_parse who).
  - by rewrite read_inbox_world.
  - apply andb_prop in Hc as [[Hteam Hby]%andb_prop Hto].
    rewrite create_task_run. cbv zeta.
    assert (Hw1 : names_ok (task_written utc_now team subject description
                                         assigned_to assigned_by w)).
    { unfold task_written. split_and!; try done. simpl.
      apply map_Forall_insert_2; [|done]. split; [done | apply file_stem_str_nat]. }
    destruct (truthy assigned_to && truthy assigned_by); [|done].
    unfold notify.
    pose proof (send_message_names_ok (assigned_by +:+ "@" +:+ team)
                  (assigned_to +:+ "@" +:+ team)
                  (json_dumps_assignment (str_nat (length (task_files team w) + 1))
                     subject description)
                  (Some "task_assignment") _ Hto Hw1) as H.
    by destruct (send_message _ _ _ _ _ _ _) as [[msg|e] w2].
  - apply andb_prop in Hc as [Hteam Hid]. unfold claim_task. run_M.
    destruct (tasks w !! (team, task_id)); [|done].
    destruct (bool_decide _); [done|]. simpl. split_and!; try done. simpl.
    by apply map_Forall_insert_2.
  - apply andb_prop in Hc as [Hteam Hid]. unfold complete_task. run_M.
    destruct (tasks w !! (team, task_id)); [|done].
    destruct (bool_decide _); [done|]. simpl. split_and!; try done. simpl.
    by apply map_Forall_insert_2.
  - done.
Qed.

Lemma map_Forall_rmtree {A} (P : string * string → A → Prop) (team : string)
    (m : gmap (string * string) A) :
  map_Forall P m → map_Forall P (rmtree team m).
Proof.
  intros H k x Hk. unfold rmtree in Hk. apply map_lookup_filter_Some in Hk as [Hk _].
  by apply H.
Qed.

Lemma run_names_ok o w :
  op_ok o = true → names_ok w →
  names_ok (run uuid8 utc_now json_dumps json_dumps_assignment o w).
Proof.
  intros Ho Hok. destruct o; cbn [run op_ok] in *.
  - by apply exec_names_ok.
  - unfold delete_team. run_M. destruct (bool_decide _); [|done]. simpl.
    destruct Hok as (Hc & Hi & Hcu & Ht). split_and!; simpl.
    + by apply map_Forall_delete.
    + by apply map_Forall_rmtree.
    + by apply map_Forall_rmtree.
    + by apply map_Forall_rmtree.
  - done.
  - by rewrite team_info_world.
Qed.

(** Every world built from an empty directory by operations on
    path-component names is keyed by such names: the worlds of
    [reachable_named] satisfy [names_ok]. *)
Lemma reachable_named_names_ok w :
  reachable_named uuid8 utc_now json_dumps json_dumps_assignment w → names_ok w.
Proof.
  intros (os & Hos & ->).
  assert (H0 : names_ok empty_world) by (split_and!; apply map_Forall_empty).
  revert H0. generalize empty_world. induction os as [|o os IH]; intros w0 H0; [done|].
  simpl in Hos. apply andb_prop in Hos as [Ho Hos]. simpl.
  apply IH; [done|]. by apply run_names_ok.
Qed.

End NamesKept.
